(** * pyrabj: the [rabj.simple] client wrappers

    A shallow embedding of [src/rabj/simple.py] (the classes [RabjServer],
    [RabjQueue] and [RabjQuestion]) and the properties of its batching,
    pagination, status cache and constructors.

    The HTTP collaborator [rabj.api] is not part of the module: it is a
    parameter of the development, a function [transport] that answers a
    request from the state of the remote server with either an exception or
    a pair (response metadata, parsed body).  Every request a method issues
    is appended to the [wire] of the world, so that theorems can count and
    order them. *)

From Stdlib Require Import ZArith List String Ascii Bool Arith Lia.
Import ListNotations.

Set Implicit Arguments.
Set Warnings "-register-all".

(** ** Python values *)

Module Py.

(** The values that travel between the client and the parsed JSON bodies.
    A dict is an association list whose first binding of a key is the one
    that counts; JSON numbers are integers. *)
Inductive pyval : Type :=
| VNone
| VBool (b : bool)
| VInt (n : Z)
| VStr (s : string)
| VList (xs : list pyval)
| VDict (kvs : list (string * pyval)).

Definition dict := list (string * pyval).

Inductive exn : Type :=
| AssertionError
| TypeError
| ValueError
| KeyError
| IndexError
| AttributeError
| RemoteError (what : string).

(** [x != None] *)
Definition is_not_None (v : pyval) : bool :=
  match v with VNone => false | _ => true end.

(** Truth value testing, as [if x:] and [not x] do it. *)
Definition truthy (v : pyval) : bool :=
  match v with
  | VNone => false
  | VBool b => b
  | VInt n => negb (n =? 0)%Z
  | VStr s => negb (String.eqb s EmptyString)
  | VList xs => match xs with [] => false | _ => true end
  | VDict kvs => match kvs with [] => false | _ => true end
  end.

Fixpoint dict_lookup (d : dict) (k : string) : option pyval :=
  match d with
  | [] => None
  | (k', v) :: rest => if String.eqb k k' then Some v else dict_lookup rest k
  end.

(** [d[k] = v]: rebinding keeps the key's place, a new key goes last. *)
Fixpoint dict_set (d : dict) (k : string) (v : pyval) : dict :=
  match d with
  | [] => [(k, v)]
  | (k', v') :: rest =>
      if String.eqb k k' then (k, v) :: rest else (k', v') :: dict_set rest k v
  end.

(** [d.update(m)]: the bindings of [m] win. *)
Definition dict_update (d m : dict) : dict :=
  fold_right (fun kv acc => dict_set acc (fst kv) (snd kv)) d m.

(** [d.get(k, default)] *)
Definition dict_get (d : dict) (k : string) (default : pyval) : pyval :=
  match dict_lookup d k with Some v => v | None => default end.

Definition has_key (d : dict) (k : string) : bool :=
  match dict_lookup d k with Some _ => true | None => false end.

(** [x.get(k, default)] on an arbitrary value: only a dict has the method. *)
Definition py_get (x : pyval) (k : string) (default : pyval) : exn + pyval :=
  match x with
  | VDict d => inr (dict_get d k default)
  | _ => inl AttributeError
  end.

(** [x[k]] for a string key. *)
Definition py_getitem (x : pyval) (k : string) : exn + pyval :=
  match x with
  | VDict d => match dict_lookup d k with Some v => inr v | None => inl KeyError end
  | _ => inl TypeError
  end.

(** [len(x)] *)
Definition py_len (x : pyval) : exn + Z :=
  match x with
  | VStr s => inr (Z.of_nat (String.length s))
  | VList xs => inr (Z.of_nat (List.length xs))
  | VDict kvs => inr (Z.of_nat (List.length kvs))
  | _ => inl TypeError
  end.

(** The items [for x in v] visits. *)
Definition py_iter (x : pyval) : exn + list pyval :=
  match x with
  | VStr s => inr (map (fun c => VStr (String c EmptyString)) (list_ascii_of_string s))
  | VList xs => inr xs
  | VDict kvs => inr (map (fun kv => VStr (fst kv)) kvs)
  | _ => inl TypeError
  end.

Definition as_int (x : pyval) : option Z :=
  match x with
  | VInt n => Some n
  | VBool b => Some (if b then 1 else 0)%Z
  | _ => None
  end.

(** [a + b] *)
Definition py_add (a b : pyval) : exn + pyval :=
  match as_int a, as_int b with
  | Some m, Some n => inr (VInt (m + n))
  | _, _ =>
      match a, b with
      | VStr s, VStr t => inr (VStr (s ++ t))
      | VList xs, VList ys => inr (VList (xs ++ ys))
      | _, _ => inl TypeError
      end
  end.

(** Binding of [**meta] against the named parameters of a method: a keyword
    that repeats a named parameter is refused when the call is made. *)
Definition bind_kwargs (named : list string) (meta : dict) : exn + unit :=
  if existsb (fun kv => existsb (String.eqb (fst kv)) named) meta
  then inl TypeError else inr tt.

(** *** Strings *)

(** [s.endswith(suffix)] *)
Definition endswith (s suffix : string) : bool :=
  let n := String.length s in
  let m := String.length suffix in
  (m <=? n)%nat && String.eqb (substring (n - m) m s) suffix.

(** [s.startswith(prefix)] *)
Definition startswith (s pre : string) : bool := String.prefix pre s.

(** [s[:-k]] for a positive literal [k] *)
Definition slice_until_neg (s : string) (k : nat) : string :=
  substring 0 (String.length s - k) s.

(** [s[k:]] *)
Definition slice_from (s : string) (k : nat) : string :=
  substring k (String.length s - k) s.

End Py.

Import Py.

(** ** Requests and the remote collaborator *)

Inductive method : Type := GET | POST | PUT | DELETE.

(** Where a path starts: at [api.RabjCallable(url, access_key=...)], or at
    an object a previous response returned (a queue or a question). *)
Inductive root : Type :=
| Url (url : pyval) (access_key : option pyval)
| Obj (record : pyval).

(** A [RabjCallable]: a root and the path segments composed on it by
    attribute and index access. *)
Record callable : Type := { c_root : root; c_path : list pyval }.

Definition at_root (r : root) : callable := {| c_root := r; c_path := [] |}.

(** [c[seg]] and [c.seg] *)
Definition sub (c : callable) (seg : pyval) : callable :=
  {| c_root := c_root c; c_path := c_path c ++ [seg] |}.

Definition attr (c : callable) (name : string) : callable := sub c (VStr name).

Record request : Type :=
  { r_target : callable; r_method : method; r_kwargs : dict }.

(** [rc.request_params(rc._url, m)] *)
Definition request_params (rc : callable) (m : method) : request :=
  {| r_target := rc; r_method := m; r_kwargs := [] |}.

(** What the module takes from outside: the remote service behind
    [rabj.api], [api.parallel_fetch], and the reading of a string by the
    builtin [int]. *)
Class Collaborator : Type :=
  { remote : Type;
    transport : remote -> request -> remote * (exn + (pyval * pyval));
    parallel_fetch :
      list request -> Z -> remote -> remote * (exn + list (pyval * pyval));
    int_literal : string -> option Z }.

(** ** The monad of client code: remote state, the requests sent so far,
    exceptions, and a loop bound *)

Inductive result (A : Type) : Type :=
| Ok (a : A)
| Raise (e : exn)
| OutOfFuel.

Arguments Raise {A} e.
Arguments OutOfFuel {A}.

Section Monad.
Context {C : Collaborator}.

Record world : Type := { srv : remote; wire : list request }.

Definition M (A : Type) : Type := world -> world * result A.

Definition ret {A} (a : A) : M A := fun w => (w, Ok a).

Definition bind {A B} (c : M A) (k : A -> M B) : M B :=
  fun w =>
    match c w with
    | (w', Ok a) => k a w'
    | (w', Raise e) => (w', Raise e)
    | (w', OutOfFuel) => (w', OutOfFuel)
    end.

Definition raise {A} (e : exn) : M A := fun w => (w, Raise e).

Definition out_of_fuel {A} : M A := fun w => (w, OutOfFuel).

Definition lift {A} (x : exn + A) : M A :=
  match x with inl e => raise e | inr a => ret a end.

(** [assert b] *)
Definition assert (b : bool) : M unit :=
  if b then ret tt else raise AssertionError.

(** One round trip: the request goes on the wire whatever the answer. *)
Definition call (r : request) : M (pyval * pyval) :=
  fun w =>
    let (s', answer) := transport (srv w) r in
    let w' := {| srv := s'; wire := wire w ++ [r] |} in
    match answer with
    | inl e => (w', Raise e)
    | inr p => (w', Ok p)
    end.

Definition get (c : callable) (kwargs : dict) : M (pyval * pyval) :=
  call {| r_target := c; r_method := GET; r_kwargs := kwargs |}.

Definition post (c : callable) (kwargs : dict) : M (pyval * pyval) :=
  call {| r_target := c; r_method := POST; r_kwargs := kwargs |}.

(** A list comprehension, or a generator consumed to its end, whose body
    has effects. *)
Fixpoint mapM {A B} (f : A -> M B) (xs : list A) : M (list B) :=
  match xs with
  | [] => ret []
  | x :: rest =>
      bind (f x) (fun y => bind (mapM f rest) (fun ys => ret (y :: ys)))
  end.

(** [int(x)] *)
Definition py_int (x : pyval) : exn + Z :=
  match x with
  | VInt n => inr n
  | VBool b => inr (if b then 1 else 0)%Z
  | VStr s => match int_literal s with Some n => inr n | None => inl ValueError end
  | _ => inl TypeError
  end.

End Monad.

Declare Scope client_scope.
Delimit Scope client_scope with client.
Notation "x <- c ;; k" := (bind c (fun x => k))
  (at level 61, c at next level, right associativity) : client_scope.
Notation "' pat <- c ;; k" := (bind c (fun x => match x with pat => k end))
  (at level 61, pat pattern, c at next level, right associativity) : client_scope.
Notation "c ;;; k" := (bind c (fun _ => k))
  (at level 61, right associativity) : client_scope.
Open Scope client_scope.

(** ** class RabjQuestion *)

Module RabjQuestion.
Section Methods.
Context {C : Collaborator}.

Record t : Type := { question : pyval }.

(** [__init__(self, question=None, server=None, id=None)] *)
Definition init (question server id : pyval) : M t :=
  assert (xorb (is_not_None question)
               (is_not_None server && is_not_None id)) ;;;
  question <-
    (if negb (truthy question)
     then ' (resp, question) <- get (sub (at_root (Url server None)) id) [] ;;
          ret question
     else ret question) ;;
  ret {| question := question |}.

(** [judgments(self)] *)
Definition judgments (self : t) : M pyval :=
  ' (resp, result) <- get (attr (at_root (Obj (question self))) "judgments") [] ;;
  lift (py_getitem result "judgments").

End Methods.
End RabjQuestion.

(** ** class RabjQueue *)

(** The second argument of [isinstance]. *)
Inductive pytype : Type := basestring | dict_type.

Inductive classinfo : Type :=
| OneClass (c : pytype)
| TupleOf (cs : list pytype)
| ListOf (cs : list pytype).

Definition has_type (v : pyval) (c : pytype) : bool :=
  match c, v with
  | basestring, VStr _ => true
  | dict_type, VDict _ => true
  | _, _ => false
  end.

(** [isinstance(v, info)]: a class or a tuple of classes; anything else
    (a list, here) is a [TypeError]. *)
Definition isinstance (v : pyval) (info : classinfo) : exn + bool :=
  match info with
  | OneClass c => inr (has_type v c)
  | TupleOf cs => inr (existsb (has_type v) cs)
  | ListOf _ => inl TypeError
  end.

(** [a, b = v] *)
Definition unpack2 (v : pyval) : exn + (pyval * pyval) :=
  match py_iter v with
  | inl e => inl e
  | inr [a; b] => inr (a, b)
  | inr _ => inl ValueError
  end.

Module RabjQueue.
Section Methods.
Context {C : Collaborator}.

Record t : Type :=
  { queue : pyval;
    threads : Z;
    _status_fetched : bool;
    _status : pyval }.

(** [__init__(self, queue=None, server_url=None, id=None, access_key=None,
    threads=1)] *)
Definition init (queue server_url id access_key : pyval) (threads : Z) : M t :=
  assert (xorb (is_not_None queue)
               (is_not_None server_url && is_not_None id
                && is_not_None access_key)) ;;;
  queue <-
    (if negb (truthy queue)
     then ' (resp, queue) <-
            get (sub (at_root (Url server_url (Some access_key))) id) [] ;;
          ret queue
     else ret queue) ;;
  ret {| queue := queue;
         threads := if (1 <? threads)%Z then 2%Z else 1%Z;
         _status_fetched := false;
         _status := VNone |}.

(** The property [parallel]. *)
Definition parallel (self : t) : bool := false.

(** The question dict [{'assertion': ..., 'answerspace': ...}] after
    [question.update(meta)]. *)
Definition new_question (assertion answerspace : pyval) (meta : dict) : pyval :=
  VDict (dict_update [("assertion"%string, assertion);
                      ("answerspace"%string, answerspace)] meta).

(** [self.queue.questions.post(questions=payload)] *)
Definition post_questions (self : t) (payload : list pyval) : M (pyval * pyval) :=
  post (attr (at_root (Obj (queue self))) "questions")
       [("questions"%string, VList payload)].

(** [addone(self, assertion, answerspace, **meta)] *)
Definition addone (self : t) (assertion answerspace : pyval) (meta : dict)
  : M pyval :=
  lift (bind_kwargs ["self"; "assertion"; "answerspace"]%string meta) ;;;
  ' (resp, result) <-
      post_questions self [new_question assertion answerspace meta] ;;
  lift (py_getitem result "questions").

(** The [for] loop of [addall], on the local variables [added] and
    [payload]. *)
Fixpoint addall_loop (self : t) (pagesize : Z)
    (three_tuples : list (pyval * pyval * dict))
    (added payload : list pyval) : M (list pyval * list pyval) :=
  match three_tuples with
  | [] => ret (added, payload)
  | (assertion, answerspace, meta) :: rest =>
      let payload := payload ++ [new_question assertion answerspace meta] in
      if (Z.of_nat (List.length payload) =? pagesize)%Z
      then ' (resp, result) <- post_questions self payload ;;
           questions <- lift (py_getitem result "questions") ;;
           items <- lift (py_iter questions) ;;
           addall_loop self pagesize rest (added ++ items) []
      else addall_loop self pagesize rest added payload
  end.

(** [addall(self, three_tuples, pagesize=1000)] *)
Definition addall (self : t) (three_tuples : list (pyval * pyval * dict))
    (pagesize : Z) : M (list pyval) :=
  ' (added, payload) <- addall_loop self pagesize three_tuples [] [] ;;
  if negb (List.length payload =? 0)%nat
  then ' (resp, result) <- post_questions self payload ;;
       questions <- lift (py_getitem result "questions") ;;
       items <- lift (py_iter questions) ;;
       ret (added ++ items)
  else ret added.

(** [getone(self, question=None)] *)
Definition getone (self : t) (question : pyval) : M RabjQuestion.t :=
  question <-
    (if is_not_None question
     then b <- lift (isinstance question (ListOf [basestring; dict_type])) ;;
          assert b ;;;
          is_dict <- lift (isinstance question (OneClass dict_type)) ;;
          questionid <-
            (if is_dict then lift (py_getitem question "id")
             else ret question) ;;
          ' (resp, question) <-
              get (sub (sub (at_root (Obj (queue self))) (VStr "../../../"))
                       questionid) [] ;;
          ret question
     else ' (resp, result) <-
              get (attr (at_root (Obj (queue self))) "questions")
                  [("limit"%string, VInt 1)] ;;
          (* [(resp, result)[0]['id']] *)
          v <- lift (py_getitem resp "id") ;;
          ' (resp, question) <- lift (unpack2 v) ;;
          ret question) ;;
  RabjQuestion.init question VNone VNone.

(** The parameters [getall] starts from. *)
Definition getall_params (body judgments since : pyval) (pagesize : Z) : dict :=
  let params := [("limit"%string, VInt pagesize); ("offset"%string, VInt 0)] in
  let params := if truthy since then dict_set params "since" since else params in
  let params :=
    if truthy judgments then dict_set params "judgments" judgments else params in
  if truthy body then dict_set params "body" body else params.

(** The [while True] loop of [getall], on the local variables [params] and
    [questions]; [fuel] bounds the number of pages. *)
Fixpoint getall_loop (fuel : nat) (self : t) (state : pyval) (pagesize : Z)
    (params : dict) (questions : list RabjQuestion.t)
  : M (list RabjQuestion.t) :=
  match fuel with
  | O => out_of_fuel
  | S fuel' =>
      ' (resp, result) <-
          (if truthy state
           then get (sub (attr (at_root (Obj (queue self))) "questions") state)
                    params
           else get (attr (at_root (Obj (queue self))) "questions") params) ;;
      page <- lift (py_getitem result "questions") ;;
      items <- lift (py_iter page) ;;
      wrapped <- mapM (fun res => RabjQuestion.init res VNone VNone) items ;;
      let questions := questions ++ wrapped in
      n <- lift (py_len page) ;;
      if (n <? pagesize)%Z then ret questions
      else
        offset <- lift (py_getitem (VDict params) "offset") ;;
        limit <- lift (py_getitem (VDict params) "limit") ;;
        offset <- lift (py_add offset limit) ;;
        getall_loop fuel' self state pagesize
                    (dict_set params "offset" offset) questions
  end.

(** [getall(self, state=None, body=True, judgments=False, since=None,
    pagesize=5000)] *)
Definition getall (fuel : nat) (self : t) (state body judgments since : pyval)
    (pagesize : Z) : M (list RabjQuestion.t) :=
  getall_loop fuel self state pagesize
              (getall_params body judgments since pagesize) [].

(** [status(self, **kwargs)] *)
Definition status (self : t) (kwargs : dict) : M pyval :=
  ' (resp, result) <- get (attr (at_root (Obj (queue self))) "status") kwargs ;;
  qstat <- lift (py_getitem result "status") ;;
  judgments <- lift (py_get qstat "judgments" (VInt 0)) ;;
  complete <- lift (py_get qstat "complete" (VInt 0)) ;;
  incomplete <- lift (py_get qstat "wanting" (VInt 0)) ;;
  started <- lift (py_get qstat "started" (VInt 0)) ;;
  let simple_status :=
    [("judgments", judgments); ("complete", complete);
     ("incomplete", incomplete); ("started", started)]%string in
  c <- lift (py_getitem (VDict simple_status) "complete") ;;
  i <- lift (py_getitem (VDict simple_status) "incomplete") ;;
  questions <- lift (py_add c i) ;;
  ret (VDict (dict_set simple_status "questions" questions)).

(** [statusonce(self)]: the queue after the call, and the snapshot. *)
Definition statusonce (self : t) : M (t * pyval) :=
  self <-
    (if negb (_status_fetched self)
     then st <- status self [] ;;
          ret {| queue := queue self; threads := threads self;
                 _status_fetched := true; _status := st |}
     else ret self) ;;
  ret (self, _status self).

(** [resetstatus(self)] *)
Definition resetstatus (self : t) : t :=
  {| queue := queue self; threads := threads self;
     _status_fetched := false; _status := VNone |}.

(** The five read-only properties, each [self.statusonce()[name]]. *)
Inductive count : Type := questions | complete | incomplete | started | judgments.

Definition count_key (p : count) : string :=
  match p with
  | questions => "questions"
  | complete => "complete"
  | incomplete => "incomplete"
  | started => "started"
  | judgments => "judgments"
  end.

Definition property (p : count) (self : t) : M (t * pyval) :=
  ' (self, status) <- statusonce self ;;
  v <- lift (py_getitem status (count_key p)) ;;
  ret (self, v).

(** [completed_questions(self, body=True, judgments=False, since=None,
    pagesize=5000)] *)
Definition completed_questions (fuel : nat) (self : t)
    (body judgments since : pyval) (pagesize : Z) : M (list RabjQuestion.t) :=
  getall fuel self (VStr "complete") (VBool true) judgments since pagesize.

(** [incomplete_questions(self, body=True, judgments=False, since=None,
    pagesize=5000)] *)
Definition incomplete_questions (fuel : nat) (self : t)
    (body judgments since : pyval) (pagesize : Z) : M (list RabjQuestion.t) :=
  getall fuel self (VStr "wanting") (VBool true) judgments since pagesize.

(** [_get(self, rabj_callables)] *)
Definition _get (self : t) (rabj_callables : list callable)
  : M (list (pyval * pyval)) :=
  if Bool.eqb (parallel self) true
  then fun w =>
         let (s', answer) :=
           parallel_fetch
             (map (fun rc => request_params rc GET) rabj_callables)
             (threads self) (srv w) in
         ({| srv := s'; wire := wire w |},
          match answer with inl e => Raise e | inr l => Ok l end)
  else mapM (fun rc => get rc []) rabj_callables.

End Methods.
End RabjQueue.

(** ** class RabjServer *)

Module RabjServer.
Section Methods.
Context {C : Collaborator}.

Record t : Type := { server : string; store : callable; threads : Z }.

(** [__init__(self, server_url, store_path='rabj/store/')] *)
Definition init (server_url store_path : string) : t :=
  let server :=
    if endswith server_url "/rabj/store/" then slice_until_neg server_url 11
    else if endswith server_url "/rabj/" then slice_until_neg server_url 5
    else server_url in
  {| server := server;
     store := sub (at_root (Url (VStr server) None)) (VStr store_path);
     threads := 1 |}.

(** [_norm_qid(self, qid)] *)
Definition _norm_qid (qid : string) : string :=
  if startswith qid "/rabj/store" then slice_from qid 11
  else if startswith qid "/store" then slice_from qid 6
  else qid.

(** [get_queue(self, queue_id, access_key=None)] *)
Definition get_queue (self : t) (queue_id : string) (access_key : pyval)
  : M RabjQueue.t :=
  ' (resp, result) <- get (sub (store self) (VStr (_norm_qid queue_id)))
                          [("access_key"%string, access_key)] ;;
  RabjQueue.init result VNone VNone VNone (threads self).

(** [create_queue(self, name, owner, votes, access_key, tags=None, **meta)];
    the warning logged for a missing access key changes nothing here. *)
Definition create_queue (self : t) (name owner votes access_key tags : pyval)
    (meta : dict) : M RabjQueue.t :=
  lift (bind_kwargs
          ["self"; "name"; "owner"; "votes"; "access_key"; "tags"]%string
          meta) ;;;
  votes <- lift (py_int votes) ;;
  let tags := if is_not_None tags then tags else VList [] in
  let queue :=
    dict_update [("name", name); ("owner", owner); ("access_key", access_key);
                 ("votes", VInt votes); ("tags", tags)]%string meta in
  ' (resp, queue) <- post (attr (store self) "queues")
                          [("queue"%string, VDict queue)] ;;
  RabjQueue.init queue VNone VNone VNone (threads self).

End Methods.
End RabjServer.

(** ** The other methods of the three classes *)

(** [del d[k]]: the binding of [k] goes. *)
Definition dict_del (d : dict) (k : string) : dict :=
  filter (fun kv => negb (String.eqb k (fst kv))) d.

(** [x[k] = v] for a string key: the object after the assignment. *)
Definition py_setitem (x : pyval) (k : string) (v : pyval) : exn + pyval :=
  match x with
  | VDict d => inr (VDict (dict_set d k v))
  | _ => inl TypeError
  end.

(** [del x[k]] for a string key: the object after the deletion. *)
Definition py_delitem (x : pyval) (k : string) : exn + pyval :=
  match x with
  | VDict d => if has_key d k then inr (VDict (dict_del d k)) else inl KeyError
  | _ => inl TypeError
  end.

(** [hasattr(x, 'get')] *)
Definition has_get (x : pyval) : bool :=
  match x with VDict _ => true | _ => false end.

Module QuestionOps.
Section Methods.
Context {C : Collaborator}.

(** [__getitem__(self, key)] *)
Definition __getitem__ (self : RabjQuestion.t) (key : string) : exn + pyval :=
  py_getitem (RabjQuestion.question self) key.

(** [__setitem__(self, key, value)]: the question after the assignment. *)
Definition __setitem__ (self : RabjQuestion.t) (key : string) (value : pyval)
  : exn + RabjQuestion.t :=
  match py_setitem (RabjQuestion.question self) key value with
  | inl e => inl e
  | inr q => inr {| RabjQuestion.question := q |}
  end.

(** [__delitem__(self, key)]: the question after the deletion. *)
Definition __delitem__ (self : RabjQuestion.t) (key : string)
  : exn + RabjQuestion.t :=
  match py_delitem (RabjQuestion.question self) key with
  | inl e => inl e
  | inr q => inr {| RabjQuestion.question := q |}
  end.

(** [update(self)] *)
Definition update (self : RabjQuestion.t) : M RabjQuestion.t :=
  ' (resp, result) <-
      call {| r_target := at_root (Obj (RabjQuestion.question self));
              r_method := PUT;
              r_kwargs := [("question"%string, RabjQuestion.question self)] |} ;;
  ret {| RabjQuestion.question := result |}.

(** [delete(self)] *)
Definition delete (self : RabjQuestion.t) : M pyval :=
  ' (resp, result) <-
      call {| r_target := at_root (Obj (RabjQuestion.question self));
              r_method := DELETE; r_kwargs := [] |} ;;
  ret result.

End Methods.
End QuestionOps.

Module QueueOps.
Section Methods.
Context {C : Collaborator}.

Definition with_queue (self : RabjQueue.t) (queue : pyval) : RabjQueue.t :=
  {| RabjQueue.queue := queue;
     RabjQueue.threads := RabjQueue.threads self;
     RabjQueue._status_fetched := RabjQueue._status_fetched self;
     RabjQueue._status := RabjQueue._status self |}.

(** [__getitem__(self, key)] *)
Definition __getitem__ (self : RabjQueue.t) (key : string) : exn + pyval :=
  py_getitem (RabjQueue.queue self) key.

(** [__setitem__(self, key, value)]: the queue after the assignment. *)
Definition __setitem__ (self : RabjQueue.t) (key : string) (value : pyval)
  : exn + RabjQueue.t :=
  match py_setitem (RabjQueue.queue self) key value with
  | inl e => inl e
  | inr q => inr (with_queue self q)
  end.

(** [__delitem__(self, key)]: the queue after the deletion. *)
Definition __delitem__ (self : RabjQueue.t) (key : string)
  : exn + RabjQueue.t :=
  match py_delitem (RabjQueue.queue self) key with
  | inl e => inl e
  | inr q => inr (with_queue self q)
  end.

(** [update(self)] *)
Definition update (self : RabjQueue.t) : M RabjQueue.t :=
  ' (resp, result) <-
      call {| r_target := at_root (Obj (RabjQueue.queue self));
              r_method := PUT;
              r_kwargs := [("queue"%string, RabjQueue.queue self)] |} ;;
  ret (with_queue self result).

(** [delete(self, questions)] *)
Definition delete (self : RabjQueue.t) (questions : list RabjQuestion.t)
  : M pyval :=
  ids <- mapM (fun q => id <- lift (QuestionOps.__getitem__ q "id") ;;
                        ret (VDict [("id"%string, id)])) questions ;;
  ' (resp, result) <-
      call {| r_target := attr (at_root (Obj (RabjQueue.queue self))) "questions";
              r_method := DELETE;
              r_kwargs := [("questions"%string, VList ids)] |} ;;
  ret result.

(** [all_questions = getall] *)
Definition all_questions := RabjQueue.getall.

(** [deleteall(self)] *)
Definition deleteall (fuel : nat) (self : RabjQueue.t) : M pyval :=
  questions <- all_questions fuel self VNone (VBool true) (VBool false) VNone
                             5000 ;;
  delete self questions.

End Methods.
End QueueOps.

Module ServerOps.
Section Methods.
Context {C : Collaborator}.

(** What [delete_queue] is given: a [RabjQueue], or any other value (a
    mapping, an id). *)
Inductive queue_ref : Type :=
| Handle (queue : RabjQueue.t)
| Value (queue : pyval).

(** [self._norm_qid(qid)] on a value: only a string has [startswith]. *)
Definition norm_qid (qid : pyval) : exn + string :=
  match qid with
  | VStr s => inr (RabjServer._norm_qid s)
  | _ => inl AttributeError
  end.

(** [delete_queue(self, queue, access_key=None)]; a [RabjQueue] has
    [__getitem__] and no [get]. *)
Definition delete_queue (self : RabjServer.t) (queue : queue_ref)
    (access_key : pyval) : M pyval :=
  ' (queue_id, access_key) <-
      match queue with
      | Handle q =>
          queue_id <- lift (QueueOps.__getitem__ q "id") ;;
          access_key <- (if is_not_None access_key then ret access_key
                         else raise AttributeError) ;;
          ret (queue_id, access_key)
      | Value v =>
          if has_get v
          then queue_id <- lift (py_getitem v "id") ;;
               access_key <- (if is_not_None access_key then ret access_key
                              else lift (py_get v "access_key" VNone)) ;;
               ret (queue_id, access_key)
          else ret (v, access_key)
      end ;;
  qid <- lift (norm_qid queue_id) ;;
  ' (resp, result) <-
      call {| r_target := sub (RabjServer.store self) (VStr qid);
              r_method := DELETE;
              r_kwargs := [("access_key"%string, access_key)] |} ;;
  ret result.

(** [[ RabjQueue(queue, threads=self.threads) for queue in result ]] *)
Definition wrap_queues (self : RabjServer.t) (result : pyval)
  : M (list RabjQueue.t) :=
  items <- lift (py_iter result) ;;
  mapM (fun queue => RabjQueue.init queue VNone VNone VNone
                                    (RabjServer.threads self)) items.

(** [public_queues(self)] *)
Definition public_queues (self : RabjServer.t) : M (list RabjQueue.t) :=
  ' (resp, result) <-
      get (attr (attr (RabjServer.store self) "queues") "public") [] ;;
  wrap_queues self result.

(** [queues_by_id(self, queue_id, access_key=None)] *)
Definition queues_by_id (self : RabjServer.t) (queue_id : string)
    (access_key : pyval) : M (list RabjQueue.t) :=
  queue <- RabjServer.get_queue self queue_id access_key ;;
  ret [queue].

(** [queues_by_accesskey(self, access_key)] *)
Definition queues_by_accesskey (self : RabjServer.t) (access_key : pyval)
  : M (list RabjQueue.t) :=
  ' (resp, result) <-
      get (attr (attr (RabjServer.store self) "queues") "access_key")
          [("access_key"%string, access_key)] ;;
  wrap_queues self result.

(** [queues_by_tags(self, tags, access_key=None)] *)
Definition queues_by_tags (self : RabjServer.t) (tags access_key : pyval)
  : M (list RabjQueue.t) :=
  let tags := if has_type tags basestring then VList [tags] else tags in
  ' (resp, result) <-
      get (attr (attr (RabjServer.store self) "queues") "tags")
          [("tag"%string, tags); ("access_key"%string, access_key)] ;;
  wrap_queues self result.

(** [queues_by_owner(self, owner, access_key=None)] *)
Definition queues_by_owner (self : RabjServer.t) (owner access_key : pyval)
  : M (list RabjQueue.t) :=
  ' (resp, result) <-
      get (attr (sub (attr (RabjServer.store self) "users") owner) "queues")
          [("access_key"%string, access_key)] ;;
  wrap_queues self result.

End Methods.
End ServerOps.

(** ** Vocabulary of the statements *)

(** The two argument forms of the constructors: a record fetched before, or
    a reference to fetch it by. *)
Definition record_given (record : pyval) : bool := is_not_None record.

Definition question_ref_given (server id : pyval) : bool :=
  is_not_None server && is_not_None id.

Definition queue_ref_given (server_url id access_key : pyval) : bool :=
  is_not_None server_url && is_not_None id && is_not_None access_key.

(** The requests the methods send. *)
Definition get_request (rc : callable) : request :=
  {| r_target := rc; r_method := GET; r_kwargs := [] |}.

Definition status_request (queue : pyval) (kwargs : dict) : request :=
  {| r_target := attr (at_root (Obj queue)) "status";
     r_method := GET; r_kwargs := kwargs |}.

Definition questions_post (queue : pyval) (payload : list pyval) : request :=
  {| r_target := attr (at_root (Obj queue)) "questions";
     r_method := POST;
     r_kwargs := [("questions"%string, VList payload)] |}.

Definition queue_post (store : callable) (record : dict) : request :=
  {| r_target := attr store "queues";
     r_method := POST;
     r_kwargs := [("queue"%string, VDict record)] |}.

(** The record [create_queue] builds once [votes] is an integer. *)
Definition queue_record (name owner access_key tags : pyval) (votes : Z)
    (meta : dict) : dict :=
  dict_update
    [("name", name); ("owner", owner); ("access_key", access_key);
     ("votes", VInt votes);
     ("tags", if is_not_None tags then tags else VList [])]%string
    meta.

(** Callables fetched one after the other, each answer at the place of its
    callable. *)
Inductive fetched_in_turn {C : Collaborator}
  : remote -> list callable -> list (pyval * pyval) -> remote -> Prop :=
| fetched_none (s : remote) : fetched_in_turn s [] [] s
| fetched_next (s s' s'' : remote) (rc : callable) (rcs : list callable)
    (p : pyval * pyval) (ps : list (pyval * pyval)) :
    transport s (get_request rc) = (s', inr p) ->
    fetched_in_turn s' rcs ps s'' ->
    fetched_in_turn s (rc :: rcs) (p :: ps) s''.

(** *** Adding questions *)

Definition question_of (triple : pyval * pyval * dict) : pyval :=
  let '(assertion, answerspace, meta) := triple in
  RabjQueue.new_question assertion answerspace meta.

(** A triple that [addone] accepts as [addone(assertion, answerspace,
    **meta)]. *)
Definition valid_triple (triple : pyval * pyval * dict) : Prop :=
  bind_kwargs ["self"; "assertion"; "answerspace"]%string (snd triple) = inr tt.

(** The input cut into batches of [size] items, the rest last. *)
Fixpoint batches_from {A} (size : nat) (open : list A) (items : list A)
  : list (list A) :=
  match items with
  | [] => match open with [] => [] | _ => [open] end
  | x :: rest =>
      if (List.length (open ++ [x]) =? size)%nat
      then (open ++ [x]) :: batches_from size [] rest
      else batches_from size (open ++ [x]) rest
  end.

Definition batches {A} (size : nat) (items : list A) : list (list A) :=
  batches_from size [] items.

(** ceil(n / p) *)
Definition ceil_div (n p : Z) : Z := ((n + p - 1) / p)%Z.

(** The number of questions a post carries. *)
Definition payload_size (r : request) : Z :=
  match dict_lookup (r_kwargs r) "questions" with
  | Some (VList payload) => Z.of_nat (List.length payload)
  | _ => 0%Z
  end.

(** Batches posted one after the other, with the questions the server
    returned for each. *)
Inductive posted_in_turn {C : Collaborator} (queue : pyval)
  : remote -> list (list pyval) -> list (list pyval) -> remote -> Prop :=
| posted_none (s : remote) : posted_in_turn queue s [] [] s
| posted_next (s s' s'' : remote) (batch : list pyval)
    (more : list (list pyval)) (resp result questions : pyval)
    (items : list pyval) (answers : list (list pyval)) :
    transport s (questions_post queue batch) = (s', inr (resp, result)) ->
    py_getitem result "questions" = inr questions ->
    py_iter questions = inr items ->
    posted_in_turn queue s' more answers s'' ->
    posted_in_turn queue s (batch :: more) (items :: answers) s''.

(** A server that answers a batch as it answers its questions posted one
    by one. *)
Definition answers_batch_as_singles {C : Collaborator} (queue : pyval) : Prop :=
  forall (s s' : remote) (batch items : list pyval),
    posted_in_turn queue s [batch] [items] s' ->
    exists singles,
      posted_in_turn queue s (map (fun q => [q]) batch) singles s'
      /\ List.concat singles = items.

(** One [addone] call per triple, the questions returned put end to end. *)
Fixpoint addones {C : Collaborator} (self : RabjQueue.t)
    (three_tuples : list (pyval * pyval * dict)) : M (list pyval) :=
  match three_tuples with
  | [] => ret []
  | (assertion, answerspace, meta) :: rest =>
      questions <- RabjQueue.addone self assertion answerspace meta ;;
      items <- lift (py_iter questions) ;;
      others <- addones self rest ;;
      ret (items ++ others)
  end.

(** What [addall] does with [added] and [payload] once the loop is over. *)
Definition flush {C : Collaborator} (self : RabjQueue.t)
    (state : list pyval * list pyval) : M (list pyval) :=
  let '(added, payload) := state in
  if negb (List.length payload =? 0)%nat
  then ' (resp, result) <- RabjQueue.post_questions self payload ;;
       questions <- lift (py_getitem result "questions") ;;
       items <- lift (py_iter questions) ;;
       ret (added ++ items)
  else ret added.

(** *** Fetching questions page by page *)

(** The filters [getall] adds to [limit] and [offset]. *)
Definition getall_extras (body judgments since : pyval) : dict :=
  (if truthy since then [("since"%string, since)] else [])
  ++ (if truthy judgments then [("judgments"%string, judgments)] else [])
  ++ (if truthy body then [("body"%string, body)] else []).

Definition page_params (extras : dict) (pagesize offset : Z) : dict :=
  ("limit"%string, VInt pagesize) :: ("offset"%string, VInt offset) :: extras.

(** The request for the page at [offset]. *)
Definition page_request (queue state : pyval) (extras : dict)
    (pagesize offset : Z) : request :=
  {| r_target :=
       if truthy state
       then sub (attr (at_root (Obj queue)) "questions") state
       else attr (at_root (Obj queue)) "questions";
     r_method := GET;
     r_kwargs := page_params extras pagesize offset |}.

(** A server that, in the state [s], holds the list [matching] of the
    questions the request selects: it answers a page request with the slice
    [matching[offset : offset + pagesize]], and reading changes nothing. *)
Definition serves_slices {C : Collaborator} (s : remote) (queue state : pyval)
    (extras : dict) (pagesize : Z) (matching : list pyval) : Prop :=
  forall offset : nat,
  exists resp result : pyval,
    transport s (page_request queue state extras pagesize (Z.of_nat offset))
    = (s, inr (resp, result))
    /\ py_getitem result "questions"
       = inr (VList (firstn (Z.to_nat pagesize) (skipn offset matching))).

(** The offsets of [count] pages from page [first] on. *)
Definition offsets (pagesize : Z) (first count : nat) : list Z :=
  map (fun k => Z.of_nat k * pagesize)%Z (seq first count).

(** The simplified status record. *)
Definition simple_status (judgments complete incomplete started questions : pyval)
  : pyval :=
  VDict [("judgments", judgments); ("complete", complete);
         ("incomplete", incomplete); ("started", started);
         ("questions", questions)]%string.

(** ** An in-memory rabj service

    A small server to run the client against: the remote state is the list
    of stored questions, a question's id is its position.  It answers the
    requests of [RabjQueue] and [RabjServer]; a page of questions carries
    the full records only when the [body] parameter is sent, and the ids
    alone otherwise. *)

Module MemoryStore.
Local Open Scope string_scope.

Definition with_id (n : nat) (q : pyval) : pyval :=
  match q with
  | VDict d => VDict (dict_set d "id" (VInt (Z.of_nat n)))
  | other => other
  end.

Fixpoint number (from : nat) (items : list pyval) : list pyval :=
  match items with
  | [] => []
  | q :: rest => with_id from q :: number (S from) rest
  end.

Definition id_only (q : pyval) : pyval :=
  match q with
  | VDict d => VDict [("id", dict_get d "id" VNone)]
  | other => other
  end.

Definition http_ok : pyval := VDict [("status", VInt 200)].

Definition refuse (s : list pyval) (code : string)
  : list pyval * (exn + (pyval * pyval)) := (s, inl (RemoteError code)).

Definition page (s : list pyval) (kwargs : dict) : pyval :=
  match dict_get kwargs "limit" (VInt 5000), dict_get kwargs "offset" (VInt 0) with
  | VInt limit, VInt offset =>
      let items := firstn (Z.to_nat limit) (skipn (Z.to_nat offset) s) in
      VDict [("questions",
              VList (if has_key kwargs "body" then items else map id_only items))]
  | _, _ => VDict [("questions", VList [])]
  end.

Definition serve (s : list pyval) (r : request)
  : list pyval * (exn + (pyval * pyval)) :=
  match r_method r, rev (c_path (r_target r)) with
  | POST, VStr seg :: _ =>
      if seg =? "questions" then
        match dict_lookup (r_kwargs r) "questions" with
        | Some (VList payload) =>
            let records := number (List.length s) payload in
            ((s ++ records)%list, inr (http_ok, VDict [("questions", VList records)]))
        | _ => refuse s "400"
        end
      else if seg =? "queues" then
        match dict_lookup (r_kwargs r) "queue" with
        | Some (VDict d) =>
            (s, inr (http_ok, VDict (dict_set d "id" (VStr "/rabj/store/queues/1"))))
        | _ => refuse s "400"
        end
      else refuse s "404"
  | GET, VStr seg :: rest =>
      if seg =? "status" then
        (s, inr (http_ok,
                 VDict [("status",
                         VDict [("judgments", VInt 0); ("complete", VInt 0);
                                ("wanting", VInt (Z.of_nat (List.length s)))])]))
      else if (seg =? "questions")
              || (match rest with VStr up :: _ => up =? "questions" | _ => false end)
      then (s, inr (http_ok, page s (r_kwargs r)))
      else refuse s "404"
  | GET, VInt n :: _ =>
      match nth_error s (Z.to_nat n) with
      | Some q => (s, inr (http_ok, q))
      | None => refuse s "404"
      end
  | _, _ => refuse s "404"
  end.

(** Decimal digits only. *)
Fixpoint digits (acc : Z) (cs : list ascii) : option Z :=
  match cs with
  | [] => Some acc
  | c :: rest =>
      let n := nat_of_ascii c in
      if ((48 <=? n) && (n <=? 57))%nat
      then digits (10 * acc + Z.of_nat (n - 48)) rest
      else None
  end.

Definition read_int (s : string) : option Z :=
  match list_ascii_of_string s with
  | [] => None
  | cs => digits 0 cs
  end.

#[export] Instance service : Collaborator :=
  { remote := list pyval;
    transport := serve;
    parallel_fetch := fun _ _ s => (s, inl (RemoteError "no worker pool"));
    int_literal := read_int }.

(** A queue on the service, and two questions. *)
Definition a_queue : RabjQueue.t :=
  {| RabjQueue.queue := VDict [("id", VStr "/rabj/store/queues/1"); ("votes", VInt 1)];
     RabjQueue.threads := 1;
     RabjQueue._status_fetched := false;
     RabjQueue._status := VNone |}.

Definition a1 : pyval * pyval * dict := (VStr "a1", VStr "bool", []).
Definition a2 : pyval * pyval * dict := (VStr "a2", VStr "bool", [("src", VStr "t")]).

Definition empty_world : world := {| srv := []; wire := [] |}.

(** Three triples, the questions stored once they are added, and the world
    that holds them. *)
Definition three : list (pyval * pyval * dict) := [a1; a2; a1].

Definition three_stored : list pyval := number 0 (map question_of three).

Definition three_world : world := {| srv := three_stored; wire := [] |}.

(** A queue whose status cache is filled with [snapshot]. *)
Definition cached (snapshot : pyval) : RabjQueue.t :=
  {| RabjQueue.queue := RabjQueue.queue a_queue;
     RabjQueue.threads := 1;
     RabjQueue._status_fetched := true;
     RabjQueue._status := snapshot |}.

Definition a_server : RabjServer.t :=
  RabjServer.init "http://h/rabj/" "rabj/store/".

End MemoryStore.

(** ** Vocabulary for the other methods *)

Definition queue_delete (store : callable) (qid : string) (access_key : pyval)
  : request :=
  {| r_target := sub store (VStr qid); r_method := DELETE;
     r_kwargs := [("access_key"%string, access_key)] |}.

Definition queue_get (store : callable) (qid : string) (access_key : pyval)
  : request :=
  {| r_target := sub store (VStr qid); r_method := GET;
     r_kwargs := [("access_key"%string, access_key)] |}.

Definition id_record (id : pyval) : pyval := VDict [("id"%string, id)].

Definition questions_delete (queue : pyval) (ids : list pyval) : request :=
  {| r_target := attr (at_root (Obj queue)) "questions"; r_method := DELETE;
     r_kwargs := [("questions"%string, VList (map id_record ids))] |}.


Definition question_put (question : pyval) : request :=
  {| r_target := at_root (Obj question); r_method := PUT;
     r_kwargs := [("question"%string, question)] |}.

(** The request of a constructor that was given neither a usable record
    nor a reference. *)
Definition blind_question_get : request :=
  {| r_target := sub (at_root (Url VNone None)) VNone;
     r_method := GET; r_kwargs := [] |}.

Definition blind_queue_get : request :=
  {| r_target := sub (at_root (Url VNone (Some VNone))) VNone;
     r_method := GET; r_kwargs := [] |}.

(** The queue a server wraps around a record. *)
Definition queue_of (threads : Z) (record : pyval) : RabjQueue.t :=
  {| RabjQueue.queue := record;
     RabjQueue.threads := if (1 <? threads)%Z then 2%Z else 1%Z;
     RabjQueue._status_fetched := false;
     RabjQueue._status := VNone |}.

(** The requests of the four listings. *)
Definition listing (store : callable) (which : list pyval) (kwargs : dict)
  : request :=
  {| r_target := fold_left sub which store;
     r_method := GET; r_kwargs := kwargs |}.

(** ** A service for the other methods

    The in-memory service, which in addition lists two queues, answers a
    queue fetched by its path, accepts deletions, and answers a saved record
    with that record marked as saved. *)

Module Desk.
Local Open Scope string_scope.

Definition queue1 : pyval :=
  VDict [("id", VStr "/rabj/store/queues/1"); ("access_key", VStr "k")].

Definition queue2 : pyval :=
  VDict [("id", VStr "/rabj/store/queues/2"); ("name", VStr "second")].

Definition directory : list pyval := [queue1; queue2].

Definition deleted : pyval := VDict [("delete", VStr "deleted")].

Definition serve (s : list pyval) (r : request)
  : list pyval * (exn + (pyval * pyval)) :=
  match r_method r, rev (c_path (r_target r)) with
  | DELETE, VStr seg :: _ =>
      if seg =? "questions"
      then ([], inr (MemoryStore.http_ok, deleted))
      else (s, inr (MemoryStore.http_ok, deleted))
  | PUT, _ =>
      match r_kwargs r with
      | (_, VDict d) :: _ =>
          (s, inr (MemoryStore.http_ok, VDict (dict_set d "saved" (VBool true))))
      | _ => MemoryStore.refuse s "400"
      end
  | GET, VStr seg :: _ =>
      if (seg =? "public") || (seg =? "access_key") || (seg =? "tags")
         || (seg =? "queues")
      then (s, inr (MemoryStore.http_ok, VList directory))
      else if seg =? "/queues/1"
      then (s, inr (MemoryStore.http_ok, queue1))
      else MemoryStore.serve s r
  | _, _ => MemoryStore.serve s r
  end.

Definition service : Collaborator :=
  {| remote := list pyval;
     transport := serve;
     parallel_fetch := fun _ _ s => (s, inl (RemoteError "no worker pool"));
     int_literal := MemoryStore.read_int |}.

Definition desk_world : @world service :=
  @Build_world service MemoryStore.three_stored [].

Definition nowhere : @world service := @Build_world service [] [].

End Desk.

(** * Properties *)

(** ** Strings: suffixes and slices *)

Section StringFacts.
Local Open Scope string_scope.

Lemma length_append (a b : string) :
  String.length (a ++ b) = (String.length a + String.length b)%nat.
Proof. induction a as [|c a IH]; simpl; [reflexivity | now rewrite IH]. Qed.

Lemma append_assoc (a b c : string) : (a ++ b) ++ c = a ++ (b ++ c).
Proof. induction a as [|x a IH]; simpl; [reflexivity | now rewrite IH]. Qed.

Lemma substring_all (s : string) : substring 0 (String.length s) s = s.
Proof. induction s as [|c s IH]; simpl; [reflexivity | now rewrite IH]. Qed.

Lemma substring_head (a b : string) :
  substring 0 (String.length a) (a ++ b) = a.
Proof.
  induction a as [|c a IH]; simpl.
  - destruct b; reflexivity.
  - now rewrite IH.
Qed.

Lemma substring_tail (a b : string) :
  substring (String.length a) (String.length b) (a ++ b) = b.
Proof.
  induction a as [|c a IH]; simpl; [apply substring_all | exact IH].
Qed.

Lemma substring_split (n : nat) (s : string) :
  (n <= String.length s)%nat ->
  s = substring 0 n s ++ substring n (String.length s - n) s.
Proof.
  revert n; induction s as [|c s IH]; intros [|n] H; simpl in *;
    try reflexivity; try lia.
  - now rewrite substring_all.
  - f_equal. apply IH. lia.
Qed.

(** A string that ends with [suffix] is some [base] followed by it. *)
Lemma endswith_true (s suffix : string) :
  endswith s suffix = true <-> exists base, s = base ++ suffix.
Proof.
  unfold endswith. split.
  - intros H. apply andb_true_iff in H as [Hle Heq].
    apply Nat.leb_le in Hle. apply String.eqb_eq in Heq.
    exists (substring 0 (String.length s - String.length suffix) s).
    set (n := (String.length s - String.length suffix)%nat) in *.
    assert (Hs : substring n (String.length s - n) s = suffix).
    { replace (String.length s - n)%nat with (String.length suffix)
        by (subst n; lia). exact Heq. }
    rewrite <- Hs at 1. apply substring_split. subst n; lia.
  - intros [base ->]. rewrite length_append.
    apply andb_true_iff. split; [apply Nat.leb_le; lia|].
    replace (String.length base + String.length suffix - String.length suffix)%nat
      with (String.length base) by lia.
    rewrite substring_tail. apply String.eqb_refl.
Qed.

Lemma slice_until_neg_app (base tail : string) :
  slice_until_neg (base ++ tail) (String.length tail) = base.
Proof.
  unfold slice_until_neg. rewrite length_append.
  replace (String.length base + String.length tail - String.length tail)%nat
    with (String.length base) by lia.
  apply substring_head.
Qed.

(** Two decompositions with tails of one length agree on the tails. *)
Lemma append_same_tail (a b s t : string) :
  String.length s = String.length t -> a ++ s = b ++ t -> s = t.
Proof.
  intros Hlen H.
  assert (Ha : String.length a = String.length b).
  { apply (f_equal String.length) in H. rewrite !length_append in H. lia. }
  rewrite <- (substring_tail a s), <- (substring_tail b t), H, Ha, Hlen.
  reflexivity.
Qed.

End StringFacts.

(** ** RabjServer: the base url *)

Section ServerUrl.
Local Open Scope string_scope.
Import RabjServer.

Lemma rabj_is_not_store (base base' : string) :
  base ++ "/rabj/" <> base' ++ "/rabj/store/".
Proof.
  intros H.
  change "/rabj/store/" with ("/rabj/" ++ "store/") in H.
  rewrite <- append_assoc in H.
  apply append_same_tail in H; [discriminate | reflexivity].
Qed.

(** C5, as the code has it: of a url that ends with [/rabj/store/] the
    constructor keeps everything up to and including the slash that starts
    the suffix (it drops the eleven characters [rabj/store/]); of a url that
    ends with [/rabj/] it likewise drops the five characters [rabj/]; any
    other url is stored unchanged. *)
Theorem server_url_normalised (server_url store_path : string) :
  (forall base, server_url = base ++ "/rabj/store/" ->
     server (init server_url store_path) = base ++ "/")
  /\ (forall base, server_url = base ++ "/rabj/" ->
        server (init server_url store_path) = base ++ "/")
  /\ ((forall base, server_url <> base ++ "/rabj/store/") ->
      (forall base, server_url <> base ++ "/rabj/") ->
      server (init server_url store_path) = server_url).
Proof.
  unfold init; simpl. repeat split.
  - intros base ->.
    assert (E : endswith (base ++ "/rabj/store/") "/rabj/store/" = true)
      by (apply endswith_true; now exists base).
    rewrite E.
    change "/rabj/store/" with ("/" ++ "rabj/store/").
    rewrite <- append_assoc.
    exact (slice_until_neg_app (base ++ "/") "rabj/store/").
  - intros base ->.
    destruct (endswith (base ++ "/rabj/") "/rabj/store/") eqn:E1.
    + apply endswith_true in E1 as [base' E1].
      now apply rabj_is_not_store in E1.
    + assert (E : endswith (base ++ "/rabj/") "/rabj/" = true)
        by (apply endswith_true; now exists base).
      rewrite E.
      change "/rabj/" with ("/" ++ "rabj/").
      rewrite <- append_assoc.
      exact (slice_until_neg_app (base ++ "/") "rabj/").
  - intros H1 H2.
    destruct (endswith server_url "/rabj/store/") eqn:E1.
    { apply endswith_true in E1 as [base E1]. now apply H1 in E1. }
    destruct (endswith server_url "/rabj/") eqn:E2.
    { apply endswith_true in E2 as [base E2]. now apply H2 in E2. }
    reflexivity.
Qed.

(** C5, as the claim words it, fails: the whole suffix [/rabj/store/] is not
    stripped, the stored url keeps a trailing slash. *)
Lemma server_url_keeps_slash :
  ~ (forall server_url base store_path : string,
       server_url = base ++ "/rabj/store/" ->
       server (init server_url store_path) = base).
Proof.
  intros H.
  specialize (H "http://h/rabj/store/" "http://h" "rabj/store/" eq_refl).
  vm_compute in H. discriminate H.
Qed.

End ServerUrl.

(** ** Running client code *)

Section Running.
Context {C : Collaborator}.

Lemma bind_ok {A B} (c : M A) (k : A -> M B) (w w' : world) (a : A) :
  c w = (w', Ok a) -> bind c k w = k a w'.
Proof. unfold bind. now intros ->. Qed.

Lemma bind_raise {A B} (c : M A) (k : A -> M B) (w w' : world) (e : exn) :
  c w = (w', Raise e) -> bind c k w = (w', Raise e).
Proof. unfold bind. now intros ->. Qed.

Lemma bind_ok_inv {A B} (c : M A) (k : A -> M B) (w w' : world) (b : B) :
  bind c k w = (w', Ok b) ->
  exists w1 a, c w = (w1, Ok a) /\ k a w1 = (w', Ok b).
Proof.
  unfold bind. destruct (c w) as [w1 [a| |]]; try discriminate. eauto.
Qed.

Lemma bind_bind {A B D} (c : M A) (k : A -> M B) (k' : B -> M D) (w : world) :
  bind (bind c k) k' w = bind c (fun a => bind (k a) k') w.
Proof. unfold bind. destruct (c w) as [w' [a| |]]; reflexivity. Qed.

Lemma bind_ret {A B} (a : A) (k : A -> M B) (w : world) :
  bind (ret a) k w = k a w.
Proof. reflexivity. Qed.

Lemma bind_lift {A B} (x : exn + A) (a : A) (k : A -> M B) (w : world) :
  x = inr a -> bind (lift x) k w = k a w.
Proof. intros ->. reflexivity. Qed.

Lemma world_eta (w : world) : {| srv := srv w; wire := wire w |} = w.
Proof. now destruct w. Qed.

Lemma lift_run {A} (x : exn + A) (w : world) :
  lift x w = (w, match x with inl e => Raise e | inr a => Ok a end).
Proof. now destruct x. Qed.

Lemma call_wire (r : request) (w : world) :
  wire (fst (call r w)) = wire w ++ [r].
Proof. unfold call. destruct (transport (srv w) r) as [s' [e|p]]; reflexivity. Qed.

Lemma call_answered (r : request) (w : world) (s' : remote) (p : pyval * pyval) :
  transport (srv w) r = (s', inr p) ->
  call r w = ({| srv := s'; wire := wire w ++ [r] |}, Ok p).
Proof. unfold call. now intros ->. Qed.

(** A record that is true in a condition wraps without a request. *)
Lemma question_of_record (record : pyval) (w : world) :
  truthy record = true ->
  RabjQuestion.init record VNone VNone w
  = (w, Ok {| RabjQuestion.question := record |}).
Proof.
  intros T. unfold RabjQuestion.init, bind, assert.
  destruct record; try discriminate T; simpl in *; rewrite ?T; reflexivity.
Qed.

Lemma questions_of_records (records : list pyval) (w : world) :
  Forall (fun r => truthy r = true) records ->
  mapM (fun res => RabjQuestion.init res VNone VNone) records w
  = (w, Ok (map RabjQuestion.Build_t records)).
Proof.
  induction 1 as [|r rs T _ IH]; simpl; [reflexivity|].
  unfold bind at 1. rewrite question_of_record by exact T.
  unfold bind at 1. rewrite IH. reflexivity.
Qed.

End Running.

(** ** The constructors *)

Section Constructors.
Context {C : Collaborator}.

(** C7.  [RabjQuestion] and [RabjQueue] are built from exactly one of the
    two argument forms: with both forms, or with neither, the constructor
    raises [AssertionError] before any request is sent, and whenever it
    returns an object exactly one form was given. *)
Theorem constructors_take_one_form
    (question server id queue server_url qid access_key : pyval)
    (threads : Z) (w : world) :
  (record_given question = question_ref_given server id ->
   RabjQuestion.init question server id w = (w, Raise AssertionError))
  /\ (forall w' q, RabjQuestion.init question server id w = (w', Ok q) ->
        record_given question <> question_ref_given server id)
  /\ (record_given queue = queue_ref_given server_url qid access_key ->
      RabjQueue.init queue server_url qid access_key threads w
      = (w, Raise AssertionError))
  /\ (forall w' q,
        RabjQueue.init queue server_url qid access_key threads w = (w', Ok q) ->
        record_given queue <> queue_ref_given server_url qid access_key).
Proof.
  unfold record_given, question_ref_given, queue_ref_given.
  unfold RabjQuestion.init, RabjQueue.init, bind, assert.
  repeat split.
  - intros ->. now rewrite xorb_nilpotent.
  - intros w' q H E. rewrite E, xorb_nilpotent in H. discriminate H.
  - intros ->. now rewrite xorb_nilpotent.
  - intros w' q H E. rewrite E, xorb_nilpotent in H. discriminate H.
Qed.

(** The forms that pass: a record is wrapped as it is, a reference is
    fetched with one request. *)
Lemma question_by_reference (server id : pyval) (w : world) :
  question_ref_given server id = true ->
  RabjQuestion.init VNone server id w
  = bind (get (sub (at_root (Url server None)) id) [])
         (fun p => ret {| RabjQuestion.question := snd p |}) w.
Proof.
  unfold question_ref_given. intros E.
  unfold RabjQuestion.init, bind, assert. simpl. rewrite E. simpl.
  destruct (get _ _ w) as [w' [[resp q]| |]]; reflexivity.
Qed.

Lemma queue_of_record (record : pyval) (threads : Z) (w : world) :
  truthy record = true ->
  RabjQueue.init record VNone VNone VNone threads w
  = (w, Ok {| RabjQueue.queue := record;
              RabjQueue.threads := if (1 <? threads)%Z then 2%Z else 1%Z;
              RabjQueue._status_fetched := false;
              RabjQueue._status := VNone |}).
Proof.
  intros T. unfold RabjQueue.init, bind, assert.
  destruct record; try discriminate T; simpl in *; rewrite ?T; reflexivity.
Qed.

End Constructors.

(** ** Sequential fetch *)

Section SequentialFetch.
Context {C : Collaborator}.

Lemma fetched_in_turn_length (s s' : remote) (rcs : list callable)
    (ps : list (pyval * pyval)) :
  fetched_in_turn s rcs ps s' -> List.length ps = List.length rcs.
Proof. induction 1; simpl; congruence. Qed.

Lemma comprehension_in_turn (rcs : list callable) (w1 w2 : world)
    (fetched : list (pyval * pyval)) :
  mapM (fun rc => get rc []) rcs w1 = (w2, Ok fetched)
  <-> fetched_in_turn (srv w1) rcs fetched (srv w2)
      /\ wire w2 = wire w1 ++ map get_request rcs.
Proof.
  revert w1 w2 fetched.
  induction rcs as [|rc rcs IH]; intros w1 w2 fetched; simpl.
  - unfold ret. split.
    + intros [= <- <-]. split; [constructor | now rewrite app_nil_r].
    + intros [H E]. inversion H; subst. rewrite app_nil_r in E.
      destruct w1, w2; simpl in *. congruence.
  - unfold bind at 1. change (get rc []) with (call (get_request rc)).
    unfold call.
    destruct (transport (srv w1) (get_request rc)) as [s' [e|p]] eqn:T.
    + split; [discriminate|].
      intros [H _]. inversion H; subst. congruence.
    + set (w' := {| srv := s'; wire := wire w1 ++ [get_request rc] |}).
      unfold bind, ret. split.
      * destruct (mapM (fun rc0 => get rc0 []) rcs w') as [w'' [ps| |]] eqn:R;
          try discriminate.
        intros [= <- <-]. apply IH in R as [R1 R2]. simpl in R1, R2.
        split; [econstructor; eauto|]. now rewrite R2, <- app_assoc.
      * intros [H E]. inversion H; subst.
        assert (s'0 = s' /\ p0 = p) as [-> ->] by (split; congruence).
        assert (R : mapM (fun rc0 => get rc0 []) rcs w' = (w2, Ok ps)).
        { apply IH. simpl. split; [assumption|].
          now rewrite E, <- app_assoc. }
        now rewrite R.
Qed.

(** C10.  A queue built with any [threads] stores 2 workers when
    [threads > 1] and 1 otherwise; [parallel] is [False]; so [_get] is the
    sequential comprehension, whatever [api.parallel_fetch] does: it sends
    one GET per callable, in order, and the list it returns holds the
    answer to each callable at the callable's index. *)
Theorem get_is_sequential (queue server_url id access_key : pyval)
    (threads : Z) (w0 w : world) (self : RabjQueue.t) :
  RabjQueue.init queue server_url id access_key threads w0 = (w, Ok self) ->
  RabjQueue.threads self = (if (1 <? threads)%Z then 2%Z else 1%Z)
  /\ RabjQueue.parallel self = false
  /\ forall (rabj_callables : list callable) (w1 : world),
       RabjQueue._get self rabj_callables w1
       = mapM (fun rc => get rc []) rabj_callables w1
       /\ forall (w2 : world) (fetched : list (pyval * pyval)),
            RabjQueue._get self rabj_callables w1 = (w2, Ok fetched) <->
            fetched_in_turn (srv w1) rabj_callables fetched (srv w2)
            /\ wire w2 = wire w1 ++ map get_request rabj_callables.
Proof.
  intros H. split; [|split; [reflexivity|]].
  - unfold RabjQueue.init in H.
    apply bind_ok_inv in H as (w1 & [] & _ & H).
    apply bind_ok_inv in H as (w2 & q & _ & H).
    unfold ret in H. now injection H as _ <-.
  - intros rcs w1. split; [reflexivity|].
    intros w2 fetched. apply comprehension_in_turn.
Qed.

End SequentialFetch.

(** ** The status of a queue and its cache *)

Section Status.
Context {C : Collaborator}.
Import RabjQueue.

Lemma py_add_counts (c i : Z) : py_add (VInt c) (VInt i) = inr (VInt (c + i)).
Proof. reflexivity. Qed.

(** A call of [status] sends one request, whatever the answer. *)
Lemma status_wire (self : t) (kwargs : dict) (w : world) :
  wire (fst (status self kwargs w))
  = wire w ++ [status_request (queue self) kwargs].
Proof.
  unfold status. unfold bind at 1.
  change (get (attr (at_root (Obj (queue self))) "status") kwargs)
    with (call (status_request (queue self) kwargs)).
  unfold call.
  destruct (transport (srv w) (status_request (queue self) kwargs))
    as [s' [e|[resp result]]]; [reflexivity|].
  unfold bind, lift, ret, raise.
  destruct (py_getitem result "status") as [e|qstat]; [reflexivity|].
  destruct qstat; try reflexivity. simpl.
  destruct (py_add _ _); reflexivity.
Qed.

(** What [status] makes of an answered request. *)
Lemma status_answered (self : t) (kwargs : dict) (w : world) (s' : remote)
    (resp body : pyval) (qstat : dict) (total : pyval) :
  transport (srv w) (status_request (queue self) kwargs)
  = (s', inr (resp, body)) ->
  py_getitem body "status" = inr (VDict qstat) ->
  py_add (dict_get qstat "complete" (VInt 0)) (dict_get qstat "wanting" (VInt 0))
  = inr total ->
  status self kwargs w
  = ({| srv := s'; wire := wire w ++ [status_request (queue self) kwargs] |},
     Ok (simple_status (dict_get qstat "judgments" (VInt 0))
                       (dict_get qstat "complete" (VInt 0))
                       (dict_get qstat "wanting" (VInt 0))
                       (dict_get qstat "started" (VInt 0))
                       total)).
Proof.
  intros T S A. unfold status. unfold bind at 1.
  change (get (attr (at_root (Obj (queue self))) "status") kwargs)
    with (call (status_request (queue self) kwargs)).
  rewrite (call_answered _ _ T).
  unfold bind, lift, ret, raise. rewrite S. simpl. rewrite A. reflexivity.
Qed.

(** Whatever [status] returns is a record with the five counts. *)
Lemma status_shape (self : t) (kwargs : dict) (w w' : world) (st : pyval) :
  status self kwargs w = (w', Ok st) ->
  exists j c i s q, st = simple_status j c i s q.
Proof.
  unfold status. unfold bind at 1.
  destruct (get _ kwargs w) as [w1 [[resp result]| |]]; try discriminate.
  unfold bind, lift, ret, raise.
  destruct (py_getitem result "status") as [e|qstat]; [discriminate|].
  destruct qstat; try discriminate. simpl.
  destruct (py_add _ _); [discriminate|].
  intros [= _ <-]. unfold simple_status. eauto 10.
Qed.

(** C3.  [status] sends the status request on every call and its outcome
    does not depend on the cache fields of the queue; when the server
    answers with a [status] object, the record returned takes [judgments],
    [complete] and [started] from the fields of these names and
    [incomplete] from [wanting], each 0 when the field is missing, and
    [questions] is [complete + incomplete]. *)
Theorem status_is_fetched_afresh (self : t) (kwargs : dict) (w : world) :
  wire (fst (status self kwargs w))
  = wire w ++ [status_request (queue self) kwargs]
  /\ (forall (fetched : bool) (cached : pyval),
        status {| queue := queue self; threads := threads self;
                  _status_fetched := fetched; _status := cached |} kwargs w
        = status self kwargs w)
  /\ (forall (s' : remote) (resp body : pyval) (qstat : dict) (total : pyval),
        transport (srv w) (status_request (queue self) kwargs)
        = (s', inr (resp, body)) ->
        py_getitem body "status" = inr (VDict qstat) ->
        py_add (dict_get qstat "complete" (VInt 0))
               (dict_get qstat "wanting" (VInt 0)) = inr total ->
        status self kwargs w
        = ({| srv := s';
              wire := wire w ++ [status_request (queue self) kwargs] |},
           Ok (simple_status (dict_get qstat "judgments" (VInt 0))
                             (dict_get qstat "complete" (VInt 0))
                             (dict_get qstat "wanting" (VInt 0))
                             (dict_get qstat "started" (VInt 0))
                             total))).
Proof.
  split; [apply status_wire|]. split; [reflexivity|].
  intros. eapply status_answered; eassumption.
Qed.

Lemma statusonce_cached (self : t) (w : world) :
  _status_fetched self = true ->
  statusonce self w = (w, Ok (self, _status self)).
Proof. unfold statusonce. intros ->. reflexivity. Qed.

Lemma statusonce_fills_cache (self self1 : t) (w w' : world) (st : pyval) :
  statusonce self w = (w', Ok (self1, st)) ->
  _status_fetched self1 = true /\ _status self1 = st
  /\ queue self1 = queue self.
Proof.
  unfold statusonce. intros H.
  apply bind_ok_inv in H as (w1 & self' & H & R).
  unfold ret in R. injection R as _ -> <-.
  destruct (_status_fetched self) eqn:F; simpl in H.
  - unfold ret in H. injection H as _ <-. auto.
  - apply bind_ok_inv in H as (w2 & st' & _ & R).
    unfold ret in R. injection R as _ <-. auto.
Qed.

(** A property read on a queue whose cache is empty is a fresh [status]
    call followed by the lookup of the count. *)
Lemma property_uncached (p : count) (self : t) (w : world) :
  _status_fetched self = false ->
  property p self w
  = bind (status self [])
         (fun st =>
            bind (lift (py_getitem st (count_key p)))
                 (fun v => ret ({| queue := queue self; threads := threads self;
                                   _status_fetched := true; _status := st |},
                                v))) w.
Proof.
  intros F. unfold property, statusonce. rewrite F. simpl.
  unfold bind. destruct (status self [] w) as [w' [st| |]]; reflexivity.
Qed.

(** C4.  Once [statusonce] has returned the snapshot, reading any of the
    five properties sends nothing and leaves the queue, with its cache, as
    it is (the count read is the one of the snapshot), and so does another
    [statusonce]; after [resetstatus], reading a property sends the status
    request again, and what it returns and caches is the outcome of that
    fresh [status] call, not the old snapshot. *)
Theorem status_cached_until_reset (self self1 : t) (w w' : world) (st : pyval) :
  statusonce self w = (w', Ok (self1, st)) ->
  (forall (p : count) (w1 : world),
     property p self1 w1
     = (w1, match py_getitem st (count_key p) with
            | inr v => Ok (self1, v)
            | inl e => Raise e
            end))
  /\ (forall w1 : world, statusonce self1 w1 = (w1, Ok (self1, st)))
  /\ (forall (p : count) (w1 : world),
        wire (fst (property p (resetstatus self1) w1))
        = wire w1 ++ [status_request (queue self1) []])
  /\ (forall (p : count) (w1 w2 : world) (fresh : pyval),
        status self1 [] w1 = (w2, Ok fresh) ->
        exists v,
          py_getitem fresh (count_key p) = inr v
          /\ property p (resetstatus self1) w1
             = (w2, Ok ({| queue := queue self1; threads := threads self1;
                           _status_fetched := true; _status := fresh |}, v))).
Proof.
  intros H. apply statusonce_fills_cache in H as (F & S & _).
  repeat split.
  - intros p w1. unfold property. unfold bind at 1.
    rewrite (statusonce_cached _ _ F), S.
    unfold bind, lift, ret, raise. destruct (py_getitem st _); reflexivity.
  - intros w1. now rewrite (statusonce_cached _ _ F), S.
  - intros p w1. rewrite property_uncached by reflexivity.
    change (status (resetstatus self1) []) with (status self1 []).
    rewrite <- (status_wire self1 [] w1).
    unfold bind at 1. destruct (status self1 [] w1) as [w2 [fresh| |]] eqn:R;
      try reflexivity.
    apply status_shape in R as (j & c & i & s & q & ->).
    destruct p; reflexivity.
  - intros p w1 w2 fresh R. rewrite property_uncached by reflexivity.
    change (status (resetstatus self1) []) with (status self1 []).
    unfold bind at 1. rewrite R.
    apply status_shape in R as (j & c & i & s & q & ->).
    destruct p; eexists; (split; [reflexivity|]); reflexivity.
Qed.

End Status.

(** ** Dicts *)

Section Dicts.

Lemma dict_lookup_set (d : dict) (k k' : string) (v : pyval) :
  dict_lookup (dict_set d k v) k'
  = if String.eqb k' k then Some v else dict_lookup d k'.
Proof.
  induction d as [|[k0 v0] d IH]; simpl.
  - reflexivity.
  - destruct (String.eqb k k0) eqn:E; simpl.
    + apply String.eqb_eq in E as <-. now destruct (String.eqb k' k).
    + rewrite IH. destruct (String.eqb k' k0) eqn:E0; [|reflexivity].
      apply String.eqb_eq in E0 as ->.
      now rewrite String.eqb_sym, E.
Qed.

Lemma dict_lookup_update (d m : dict) (k : string) :
  dict_lookup (dict_update d m) k
  = match dict_lookup m k with Some v => Some v | None => dict_lookup d k end.
Proof.
  unfold dict_update. induction m as [|[k0 v0] m IH]; simpl; [reflexivity|].
  rewrite dict_lookup_set, IH. now destruct (String.eqb k k0).
Qed.

Lemma bind_kwargs_fresh (named : list string) (meta : dict) (k : string) :
  bind_kwargs named meta = inr tt -> In k named -> dict_lookup meta k = None.
Proof.
  unfold bind_kwargs.
  destruct (existsb _ meta) eqn:E; [discriminate|]. intros _ Hk.
  induction meta as [|[k0 v0] meta IH]; simpl in *; [reflexivity|].
  apply orb_false_iff in E as [E0 E].
  destruct (String.eqb k k0) eqn:Ek; [|now apply IH].
  apply String.eqb_eq in Ek as <-.
  assert (X : existsb (String.eqb k) named = true).
  { apply existsb_exists. exists k. split; [exact Hk | apply String.eqb_refl]. }
  congruence.
Qed.

End Dicts.

(** ** RabjServer.create_queue *)

Section CreateQueue.
Context {C : Collaborator}.
Import RabjServer.

Lemma py_int_errors (x : pyval) (e : exn) :
  py_int x = inl e -> e = TypeError \/ e = ValueError.
Proof.
  destruct x; simpl; try (intros [= <-]; auto); try discriminate.
  destruct (int_literal s); [discriminate | intros [= <-]; auto].
Qed.

(** The constructor of a queue only adds to the wire. *)
Lemma queue_init_appends (queue : pyval) (threads : Z) (w : world) :
  exists sent,
    wire (fst (RabjQueue.init queue VNone VNone VNone threads w))
    = wire w ++ sent.
Proof.
  unfold RabjQueue.init, bind, assert. simpl.
  rewrite xorb_false_r.
  destruct (is_not_None queue); simpl; [|exists []; now rewrite app_nil_r].
  destruct (truthy queue); simpl; [exists []; now rewrite app_nil_r|].
  match goal with |- context [get ?c ?k w] =>
    pose proof (call_wire {| r_target := c; r_method := GET; r_kwargs := k |} w)
      as W;
    change (call {| r_target := c; r_method := GET; r_kwargs := k |} w)
      with (get c k w) in W;
    destruct (get c k w) as [w' [[resp q]| |]]
  end; simpl in *; eauto.
Qed.

(** C6.  For a well-formed call of [create_queue] (no keyword of [meta]
    repeats a named parameter): when [int(votes)] raises, the call raises
    that error, a [TypeError] or a [ValueError], and nothing is sent; when
    [int(votes)] is [n], the first request is the post of the queue record,
    whose [votes] field is [n], and the record the server answers with is
    returned wrapped in a [RabjQueue]. *)
Theorem create_queue_checks_votes (self : t)
    (name owner votes access_key tags : pyval) (meta : dict) (w : world) :
  bind_kwargs ["self"; "name"; "owner"; "votes"; "access_key"; "tags"]%string
              meta = inr tt ->
  (forall e : exn, py_int votes = inl e ->
     create_queue self name owner votes access_key tags meta w = (w, Raise e)
     /\ (e = TypeError \/ e = ValueError))
  /\ (forall n : Z, py_int votes = inr n ->
        dict_lookup (queue_record name owner access_key tags n meta) "votes"
        = Some (VInt n)
        /\ (exists sent,
              wire (fst (create_queue self name owner votes access_key tags
                                      meta w))
              = wire w
                ++ queue_post (store self)
                     (queue_record name owner access_key tags n meta)
                   :: sent)
        /\ (forall (s' : remote) (resp queue : pyval),
              transport (srv w)
                (queue_post (store self)
                   (queue_record name owner access_key tags n meta))
              = (s', inr (resp, queue)) ->
              truthy queue = true ->
              create_queue self name owner votes access_key tags meta w
              = ({| srv := s';
                    wire := wire w
                      ++ [queue_post (store self)
                            (queue_record name owner access_key tags n meta)] |},
                 Ok {| RabjQueue.queue := queue;
                       RabjQueue.threads :=
                         if (1 <? threads self)%Z then 2%Z else 1%Z;
                       RabjQueue._status_fetched := false;
                       RabjQueue._status := VNone |}))).
Proof.
  intros K. unfold create_queue. rewrite K. split.
  - intros e E. split; [|exact (py_int_errors _ E)].
    unfold bind, lift, ret, raise. now rewrite E.
  - intros n E. split; [|split].
    + unfold queue_record. rewrite dict_lookup_update.
      rewrite (bind_kwargs_fresh _ _ "votes"%string K); [reflexivity|].
      simpl; auto.
    + unfold bind at 1. simpl. unfold bind at 1. rewrite E. simpl.
      fold (queue_record name owner access_key tags n meta).
      unfold bind at 1.
      change (post (attr (store self) "queues")
                [("queue"%string,
                  VDict (queue_record name owner access_key tags n meta))])
        with (call (queue_post (store self)
                      (queue_record name owner access_key tags n meta))).
      pose proof (call_wire (queue_post (store self)
                    (queue_record name owner access_key tags n meta)) w) as W.
      destruct (call _ w) as [w1 [[resp queue]| |]]; simpl in W |- *;
        try (exists []; exact W).
      destruct (queue_init_appends queue (threads self) w1) as [sent S].
      exists sent. rewrite S, W, <- app_assoc. reflexivity.
    + intros s' resp queue T Q.
      unfold bind at 1. simpl. unfold bind at 1. rewrite E. simpl.
      fold (queue_record name owner access_key tags n meta).
      unfold bind at 1.
      change (post (attr (store self) "queues")
                [("queue"%string,
                  VDict (queue_record name owner access_key tags n meta))])
        with (call (queue_post (store self)
                      (queue_record name owner access_key tags n meta))).
      rewrite (call_answered _ _ T).
      now apply queue_of_record.
Qed.

End CreateQueue.

(** ** RabjQueue.getone *)

Section GetOne.
Context {C : Collaborator}.
Import RabjQueue.

(** With a question nominated, [getone] stops at its [isinstance] test,
    whose second argument is a list. *)
Lemma getone_nominated (self : t) (question : pyval) (w : world) :
  is_not_None question = true ->
  getone self question w = (w, Raise TypeError).
Proof. unfold getone. intros ->. reflexivity. Qed.

(** C9, on the code.  A call of [getone] that nominates a question, by its
    id or by a record, raises [TypeError] and fetches nothing. *)
Theorem getone_nominated_raises (self : t) (w : world) :
  (forall id : string, getone self (VStr id) w = (w, Raise TypeError))
  /\ (forall record : dict, getone self (VDict record) w = (w, Raise TypeError)).
Proof. split; intros; now apply getone_nominated. Qed.

(** Without an argument, [getone] looks for the question in the response
    metadata, not in the body: metadata without an [id] makes it raise. *)
Lemma getone_arbitrary_reads_metadata (self : t) (w : world) (s' : remote)
    (resp body : pyval) (e : exn) :
  transport (srv w)
    {| r_target := attr (at_root (Obj (queue self))) "questions";
       r_method := GET; r_kwargs := [("limit"%string, VInt 1)] |}
  = (s', inr (resp, body)) ->
  py_getitem resp "id" = inl e ->
  exists w', getone self VNone w = (w', Raise e).
Proof.
  intros T E. unfold getone. simpl. unfold bind at 1. unfold bind at 1.
  unfold get. rewrite (call_answered _ _ T).
  unfold bind at 1. rewrite lift_run, E. eauto.
Qed.

End GetOne.

(** ** Batches *)

Section Batches.
Context {A : Type}.
Variable size : nat.
Hypothesis size_positive : (1 <= size)%nat.

Lemma concat_batches_from (open items : list A) :
  List.concat (batches_from size open items) = open ++ items.
Proof.
  revert open. induction items as [|x rest IH]; intros open; simpl.
  - destruct open; simpl; now rewrite ?app_nil_r.
  - destruct (List.length (open ++ [x]) =? size)%nat; simpl; rewrite IH;
      now rewrite <- app_assoc.
Qed.

Lemma batches_from_sizes (open items : list A) :
  (List.length open < size)%nat ->
  Forall (fun batch => 1 <= List.length batch <= size)%nat
         (batches_from size open items).
Proof.
  revert open. induction items as [|x rest IH]; intros open Hopen; simpl.
  - destruct open as [|y ys]; constructor; [simpl in *; lia | constructor].
  - destruct (List.length (open ++ [x]) =? size)%nat eqn:E.
    + apply Nat.eqb_eq in E. constructor; [lia|].
      apply IH. simpl. lia.
    + apply Nat.eqb_neq in E. apply IH.
      rewrite length_app in *. simpl in *. lia.
Qed.

Lemma batches_from_count (open items : list A) :
  (List.length open < size)%nat ->
  List.length (batches_from size open items)
  = ((List.length open + List.length items + size - 1) / size)%nat.
Proof.
  revert open. induction items as [|x rest IH]; intros open Hopen; simpl.
  - destruct open as [|y ys]; cbn [List.length].
    + symmetry. apply Nat.div_small. lia.
    + cbn [List.length] in Hopen.
      apply Nat.div_unique with (r := List.length ys); lia.
  - destruct (List.length (open ++ [x]) =? size)%nat eqn:E.
    + apply Nat.eqb_eq in E. rewrite length_app in E. simpl in E.
      simpl. rewrite IH by (simpl; lia). simpl.
      replace (List.length open + S (List.length rest) + size - 1)%nat
        with (1 * size + (List.length rest + size - 1))%nat by lia.
      rewrite Nat.div_add_l by lia. reflexivity.
    + apply Nat.eqb_neq in E. rewrite length_app in E. simpl in E.
      rewrite IH by (rewrite length_app; simpl; lia).
      rewrite length_app. simpl. f_equal. lia.
Qed.

End Batches.

Lemma batches_count_ceil {A} (items : list A) (pagesize : Z) :
  (1 <= pagesize)%Z ->
  Z.of_nat (List.length (batches (Z.to_nat pagesize) items))
  = ceil_div (Z.of_nat (List.length items)) pagesize.
Proof.
  intros HP. unfold batches, ceil_div.
  rewrite batches_from_count by (simpl; lia). simpl.
  rewrite Nat2Z.inj_div. f_equal; lia.
Qed.

(** ** RabjQueue.addall *)

Section Adding.
Context {C : Collaborator}.
Import RabjQueue.

Lemma addall_unfold (self : t) (three_tuples : list (pyval * pyval * dict))
    (pagesize : Z) :
  addall self three_tuples pagesize
  = bind (addall_loop self pagesize three_tuples [] []) (flush self).
Proof. reflexivity. Qed.

(** One answered post, as the loop and the flush run it. *)
Lemma post_questions_answered {B} (self : t) (payload items : list pyval)
    (resp result questions : pyval) (s' : remote) (w : world)
    (k : list pyval -> M B) :
  transport (srv w) (questions_post (queue self) payload)
  = (s', inr (resp, result)) ->
  py_getitem result "questions" = inr questions ->
  py_iter questions = inr items ->
  bind (post_questions self payload)
       (fun p => let '(resp, result) := p in
                 bind (lift (py_getitem result "questions"))
                      (fun questions =>
                         bind (lift (py_iter questions)) k)) w
  = k items {| srv := s';
               wire := wire w ++ [questions_post (queue self) payload] |}.
Proof.
  intros T Q I.
  change (post_questions self payload)
    with (call (questions_post (queue self) payload)).
  erewrite bind_ok by (apply call_answered; exact T).
  cbv beta iota.
  erewrite bind_lift by exact Q. now erewrite bind_lift by exact I.
Qed.

Lemma addall_loop_posts (self : t) (p : nat)
    (three_tuples : list (pyval * pyval * dict)) :
  (1 <= p)%nat ->
  forall (added payload : list pyval) (w : world)
         (answers : list (list pyval)) (s' : remote),
    (List.length payload < p)%nat ->
    posted_in_turn (queue self) (srv w)
      (batches_from p payload (map question_of three_tuples)) answers s' ->
    bind (addall_loop self (Z.of_nat p) three_tuples added payload)
         (flush self) w
    = ({| srv := s';
          wire := wire w
            ++ map (questions_post (queue self))
                 (batches_from p payload (map question_of three_tuples)) |},
       Ok (added ++ List.concat answers)).
Proof.
  intros Hp.
  induction three_tuples as [|[[assertion answerspace] meta] rest IH];
    intros added payload w answers s' Hlen H; simpl in *.
  - unfold bind at 1, ret. destruct payload as [|y ys].
    + inversion H; subst. simpl. now rewrite !app_nil_r, world_eta.
    + inversion H as [|? ? ? ? ? ? ? ? ? ? T Q I H']; subst.
      inversion H'; subst.
      unfold flush.
      change (negb (List.length (y :: ys) =? 0)%nat) with true. cbv iota.
      rewrite (post_questions_answered self (y :: ys) w _ T Q I).
      unfold ret. simpl. now rewrite app_nil_r.
  - set (payload' := payload ++ [new_question assertion answerspace meta]) in *.
    assert (E : (Z.of_nat (List.length payload') =? Z.of_nat p)%Z
                = (List.length payload' =? p)%nat).
    { destruct (Nat.eqb_spec (List.length payload') p) as [->|N].
      - apply Z.eqb_refl.
      - apply Z.eqb_neq. lia. }
    rewrite E. destruct (List.length payload' =? p)%nat eqn:F.
    + inversion H as [|? s1 ? ? ? ? ? ? items answers' T Q I H']; subst.
      unfold bind at 1.
      rewrite (post_questions_answered self payload' w
                 (fun items => addall_loop self (Z.of_nat p) rest
                                 (added ++ items) [])
                 T Q I).
      match goal with |- _ = ?rhs =>
        change (bind (addall_loop self (Z.of_nat p) rest (added ++ items) [])
                     (flush self)
                     {| srv := s1;
                        wire := wire w
                          ++ [questions_post (queue self) payload'] |}
                = rhs)
      end.
      rewrite (IH (added ++ items) [] _ answers' s'); simpl; try lia;
        [|exact H'].
      now rewrite <- !app_assoc.
    + apply Nat.eqb_neq in F. apply IH; [|exact H].
      subst payload'. rewrite length_app in *. simpl in *. lia.
Qed.

Lemma posted_in_turn_app (queue : pyval) (s s1 s2 : remote)
    (b1 b2 a1 a2 : list (list pyval)) :
  posted_in_turn queue s b1 a1 s1 ->
  posted_in_turn queue s1 b2 a2 s2 ->
  posted_in_turn queue s (b1 ++ b2) (a1 ++ a2) s2.
Proof.
  induction 1; intros Hrest; simpl; [exact Hrest|].
  econstructor; eauto.
Qed.

Lemma posted_as_singles (queue : pyval) (s s' : remote)
    (sent answers : list (list pyval)) :
  answers_batch_as_singles queue ->
  posted_in_turn queue s sent answers s' ->
  exists singles,
    posted_in_turn queue s (map (fun q => [q]) (List.concat sent)) singles s'
    /\ List.concat singles = List.concat answers.
Proof.
  intros S. induction 1 as [s|s s1 s2 batch more resp result qs items answers
                              T Q I H IH].
  - exists []. split; [constructor | reflexivity].
  - destruct IH as (singles2 & P2 & E2).
    destruct (S s s1 batch items) as (singles1 & P1 & E1).
    { econstructor; eauto. constructor. }
    exists (singles1 ++ singles2). split.
    + simpl. rewrite map_app. eapply posted_in_turn_app; eauto.
    + simpl. now rewrite concat_app, E1, E2.
Qed.

Lemma addones_posts (self : t) (three_tuples : list (pyval * pyval * dict)) :
  Forall valid_triple three_tuples ->
  forall (w : world) (singles : list (list pyval)) (s' : remote),
    posted_in_turn (queue self) (srv w)
      (map (fun q => [q]) (map question_of three_tuples)) singles s' ->
    addones self three_tuples w
    = ({| srv := s';
          wire := wire w
            ++ map (fun q => questions_post (queue self) [q])
                 (map question_of three_tuples) |},
       Ok (List.concat singles)).
Proof.
  induction 1 as [|[[assertion answerspace] meta] rest V _ IH];
    intros w singles s' H; simpl in *.
  - inversion H; subst. unfold ret. simpl. now rewrite app_nil_r, world_eta.
  - inversion H as [|? s1 ? ? ? resp result qs items singles' T Q I H'];
      subst.
    unfold valid_triple in V. simpl in V.
    unfold addone. rewrite V. simpl lift.
    rewrite bind_bind, bind_ret. cbv beta. rewrite bind_bind.
    change (post_questions self [new_question assertion answerspace meta])
      with (call (questions_post (queue self)
                    [new_question assertion answerspace meta])).
    erewrite bind_ok by (apply call_answered; exact T).
    cbv beta iota. erewrite bind_lift by exact Q.
    erewrite bind_lift by exact I.
    unfold bind at 1. rewrite (IH _ singles' s') by exact H'.
    unfold ret. simpl. now rewrite <- app_assoc.
Qed.

(** C1, for a page size of at least 1.  When the server answers the posts,
    [addall] sends the questions of the triples cut into batches of
    [pagesize], in input order, the rest as a last batch: that is
    ceil(N / pagesize) posts, none empty and none larger than [pagesize],
    which together hold the N questions in order; it returns the questions
    the server returned for the batches, put end to end.  On a server that
    answers a batch as it answers its questions one by one, this is what N
    calls of [addone] on valid triples return. *)
Theorem addall_posts_batches (self : t)
    (three_tuples : list (pyval * pyval * dict)) (pagesize : Z) (w : world)
    (answers : list (list pyval)) (s' : remote) :
  (1 <= pagesize)%Z ->
  posted_in_turn (queue self) (srv w)
    (batches (Z.to_nat pagesize) (map question_of three_tuples)) answers s' ->
  addall self three_tuples pagesize w
  = ({| srv := s';
        wire := wire w
          ++ map (questions_post (queue self))
               (batches (Z.to_nat pagesize) (map question_of three_tuples)) |},
     Ok (List.concat answers))
  /\ Z.of_nat (List.length
                 (batches (Z.to_nat pagesize) (map question_of three_tuples)))
     = ceil_div (Z.of_nat (List.length three_tuples)) pagesize
  /\ Forall (fun batch => 1 <= Z.of_nat (List.length batch) <= pagesize)%Z
            (batches (Z.to_nat pagesize) (map question_of three_tuples))
  /\ List.concat (batches (Z.to_nat pagesize) (map question_of three_tuples))
     = map question_of three_tuples
  /\ (Forall valid_triple three_tuples ->
      answers_batch_as_singles (queue self) ->
      exists w1,
        addones self three_tuples w = (w1, Ok (List.concat answers))
        /\ srv w1 = s').
Proof.
  intros HP H.
  assert (Hp : (1 <= Z.to_nat pagesize)%nat) by lia.
  repeat split.
  - rewrite addall_unfold.
    rewrite <- (Z2Nat.id pagesize) at 1 by lia.
    apply (addall_loop_posts self three_tuples Hp [] [] w); [simpl; lia|].
    exact H.
  - rewrite batches_count_ceil by exact HP. now rewrite length_map.
  - eapply Forall_impl; [|apply (batches_from_sizes Hp); simpl; lia].
    simpl. intros batch. lia.
  - apply concat_batches_from.
  - intros V S.
    destruct (posted_as_singles S H) as (singles & P & E).
    unfold batches in P. rewrite concat_batches_from in P. simpl in P.
    rewrite (addones_posts self V w P), E. eauto.
Qed.

End Adding.

(** ** RabjQueue.getall *)

Section Paging.
Context {C : Collaborator}.
Import RabjQueue.

Lemma getall_params_shape (body judgments since : pyval) (pagesize : Z) :
  getall_params body judgments since pagesize
  = page_params (getall_extras body judgments since) pagesize 0.
Proof.
  unfold getall_params, getall_extras, page_params.
  destruct (truthy since), (truthy judgments), (truthy body); reflexivity.
Qed.

(** One turn of the loop on an answered page of records. *)
Lemma getall_page (fuel : nat) (self : t) (state : pyval) (pagesize offset : Z)
    (extras : dict) (acc : list RabjQuestion.t) (w : world) (s' : remote)
    (resp result : pyval) (items : list pyval) :
  transport (srv w) (page_request (queue self) state extras pagesize offset)
  = (s', inr (resp, result)) ->
  py_getitem result "questions" = inr (VList items) ->
  Forall (fun q => truthy q = true) items ->
  getall_loop (S fuel) self state pagesize
              (page_params extras pagesize offset) acc w
  = if (Z.of_nat (List.length items) <? pagesize)%Z
    then ({| srv := s';
             wire := wire w ++ [page_request (queue self) state extras
                                             pagesize offset] |},
          Ok (acc ++ map RabjQuestion.Build_t items))
    else getall_loop fuel self state pagesize
           (page_params extras pagesize (offset + pagesize))
           (acc ++ map RabjQuestion.Build_t items)
           {| srv := s';
              wire := wire w ++ [page_request (queue self) state extras
                                              pagesize offset] |}.
Proof.
  intros T Q R. cbn [getall_loop].
  assert (E : (if truthy state
               then get (sub (attr (at_root (Obj (queue self))) "questions")
                             state)
                        (page_params extras pagesize offset)
               else get (attr (at_root (Obj (queue self))) "questions")
                        (page_params extras pagesize offset))
              = call (page_request (queue self) state extras pagesize offset)).
  { unfold page_request. destruct (truthy state); reflexivity. }
  rewrite E. erewrite bind_ok by (apply call_answered; exact T).
  cbv beta iota. erewrite bind_lift by exact Q.
  erewrite bind_lift by reflexivity.
  erewrite bind_ok by (apply questions_of_records; exact R).
  erewrite bind_lift by reflexivity.
  destruct (Z.of_nat (List.length items) <? pagesize)%Z; reflexivity.
Qed.

Lemma slice_all_truthy (matching : list pyval) (n k : nat) :
  Forall (fun q => truthy q = true) matching ->
  Forall (fun q => truthy q = true) (firstn n (skipn k matching)).
Proof.
  intros H.
  assert (Hskip : Forall (fun q => truthy q = true) (skipn k matching)).
  { revert k. induction H as [|q l Hq Hl IH]; intros [|k]; simpl;
      try constructor; auto. }
  revert n. induction Hskip as [|q l Hq _ IH]; intros [|n]; simpl;
    constructor; auto.
Qed.

Lemma getall_loop_slices (self : t) (state : pyval) (extras : dict) (p : nat)
    (matching : list pyval) (s : remote) :
  (1 <= p)%nat ->
  serves_slices s (queue self) state extras (Z.of_nat p) matching ->
  Forall (fun q => truthy q = true) matching ->
  forall (fuel k : nat) (acc : list RabjQuestion.t) (sent : list request),
    (k * p <= List.length matching)%nat ->
    (List.length matching - k * p < fuel * p)%nat ->
    getall_loop fuel self state (Z.of_nat p)
                (page_params extras (Z.of_nat p) (Z.of_nat k * Z.of_nat p))
                acc {| srv := s; wire := sent |}
    = ({| srv := s;
          wire := sent
            ++ map (page_request (queue self) state extras (Z.of_nat p))
                   (offsets (Z.of_nat p) k
                            (List.length matching / p + 1 - k)) |},
       Ok (acc ++ map RabjQuestion.Build_t (skipn (k * p) matching))).
Proof.
  intros Hp Hserve R. induction fuel as [|fuel IH]; intros k acc sent Hk Hfuel.
  - simpl in Hfuel. lia.
  - destruct (Hserve (k * p)%nat) as (resp & result & T & Q).
    rewrite Nat2Z.inj_mul in T. rewrite Nat2Z.id in Q.
    erewrite getall_page;
      [| exact T | exact Q | apply slice_all_truthy; exact R].
    set (items := firstn p (skipn (k * p) matching)) in *.
    assert (Hitems : List.length items
                     = Nat.min p (List.length matching - k * p)).
    { subst items. now rewrite length_firstn, length_skipn. }
    cbn [srv wire].
    destruct (Z.ltb_spec (Z.of_nat (List.length items)) (Z.of_nat p))
      as [Short|Full].
    + assert (Hdiv : (List.length matching / p = k)%nat).
      { symmetry.
        apply Nat.div_unique with (r := (List.length matching - k * p)%nat);
          lia. }
      rewrite Hdiv. replace (k + 1 - k)%nat with 1%nat by lia.
      subst items. rewrite firstn_all2 by (rewrite length_skipn; lia).
      reflexivity.
    + assert (Hnext : (S k * p <= List.length matching)%nat) by lia.
      replace (Z.of_nat k * Z.of_nat p + Z.of_nat p)%Z
        with (Z.of_nat (S k) * Z.of_nat p)%Z by lia.
      rewrite (IH (S k)) by lia.
      f_equal; [f_equal|f_equal].
      * rewrite <- app_assoc. f_equal.
        assert (Hq : (S k <= List.length matching / p)%nat)
          by (apply Nat.div_le_lower_bound; lia).
        replace (List.length matching / p + 1 - k)%nat
          with (S (List.length matching / p + 1 - S k))%nat by lia.
        reflexivity.
      * rewrite <- app_assoc, <- map_app. repeat f_equal.
        subst items.
        replace (S k * p)%nat with (p + k * p)%nat by lia.
        rewrite <- skipn_skipn. apply firstn_skipn.
Qed.

(** The pages of a list: all full but the last, which is short. *)
Lemma slices_full_then_short (p : nat) (matching : list pyval) :
  (1 <= p)%nat ->
  (forall k, (k < List.length matching / p)%nat ->
             List.length (firstn p (skipn (k * p) matching)) = p)
  /\ (List.length
        (firstn p (skipn (List.length matching / p * p) matching)) < p)%nat.
Proof.
  intros Hp.
  pose proof (Nat.div_mod_eq (List.length matching) p) as D.
  pose proof (Nat.mod_upper_bound (List.length matching) p) as U.
  split.
  - intros k Hk. rewrite length_firstn, length_skipn.
    assert ((S k) * p <= List.length matching / p * p)%nat
      by (apply Nat.mul_le_mono_r; lia).
    lia.
  - rewrite length_firstn, length_skipn. lia.
Qed.

(** C2, for a page size of at least 1 and a server that serves the slices
    of the list of matching questions (records that are true in a
    condition).  [getall] requests [pagesize] questions at offsets 0,
    [pagesize], 2 * [pagesize], ..., appends each page in order, and stops
    after the first page that holds fewer than [pagesize] questions, all
    pages before it being full; it returns every matching question wrapped
    in a [RabjQuestion], in the order of the pages, so as many as the
    server holds. *)
Theorem getall_fetches_every_page (fuel : nat) (self : t)
    (state body judgments since : pyval) (pagesize : Z)
    (matching : list pyval) (w : world) :
  (1 <= pagesize)%Z ->
  serves_slices (srv w) (queue self) state
                (getall_extras body judgments since) pagesize matching ->
  Forall (fun q => truthy q = true) matching ->
  (List.length matching / Z.to_nat pagesize < fuel)%nat ->
  getall fuel self state body judgments since pagesize w
  = ({| srv := srv w;
        wire := wire w
          ++ map (page_request (queue self) state
                    (getall_extras body judgments since) pagesize)
                 (offsets pagesize 0
                    (List.length matching / Z.to_nat pagesize + 1)) |},
     Ok (map RabjQuestion.Build_t matching))
  /\ List.length (map RabjQuestion.Build_t matching) = List.length matching
  /\ (forall k, (k < List.length matching / Z.to_nat pagesize)%nat ->
        Z.of_nat (List.length
                    (firstn (Z.to_nat pagesize)
                            (skipn (k * Z.to_nat pagesize) matching)))
        = pagesize)
  /\ (Z.of_nat
        (List.length
           (firstn (Z.to_nat pagesize)
              (skipn (List.length matching / Z.to_nat pagesize
                      * Z.to_nat pagesize) matching))) < pagesize)%Z.
Proof.
  intros HP Hserve R Hfuel.
  assert (Hp : (1 <= Z.to_nat pagesize)%nat) by lia.
  pose proof (Z2Nat.id pagesize ltac:(lia)) as Eid.
  destruct (slices_full_then_short matching Hp) as [Full Short].
  rewrite <- Eid in Hserve.
  pose proof (getall_loop_slices self Hp Hserve R fuel 0 [] (wire w)) as E.
  rewrite Eid in E. simpl in E. rewrite world_eta in E.
  unfold getall. rewrite getall_params_shape.
  repeat split.
  - rewrite E; [now rewrite Nat.sub_0_r | lia |].
    pose proof (Nat.mul_succ_div_gt (List.length matching)
                                    (Z.to_nat pagesize)).
    nia.
  - apply length_map.
  - intros k Hk. rewrite (Full k Hk). exact Eid.
  - lia.
Qed.

End Paging.

(** ** The client on the in-memory service *)

Section OnTheService.
Import MemoryStore RabjQueue.
Local Open Scope string_scope.

Lemma concat_singles {A} (l : list A) : List.concat (map (fun x => [x]) l) = l.
Proof. induction l as [|x l IH]; simpl; [reflexivity | now rewrite IH]. Qed.

Lemma service_posts_singles (queue : pyval) (batch : list pyval) :
  forall s : list pyval,
    posted_in_turn queue s (map (fun q => [q]) batch)
      (map (fun q => [q]) (number (List.length s) batch))
      (s ++ number (List.length s) batch)%list.
Proof.
  induction batch as [|x rest IH]; intros s; simpl.
  - rewrite app_nil_r. constructor.
  - econstructor; [reflexivity | reflexivity | reflexivity |].
    specialize (IH (s ++ [with_id (List.length s) x])%list).
    rewrite length_app, Nat.add_1_r, <- app_assoc in IH. exact IH.
Qed.

(** The service answers a batch as it answers its questions one by one. *)
Lemma service_batch_as_singles (queue : pyval) :
  answers_batch_as_singles queue.
Proof.
  intros s s' batch items H.
  inversion H as [|? s1 ? ? ? resp result qs ? ? T Q I H']; subst.
  inversion H'; subst.
  cbn in T. injection T as <- _ <-.
  cbn in Q. injection Q as <-. cbn in I. injection I as <-.
  exists (map (fun q => [q]) (number (List.length s) batch)).
  split; [apply service_posts_singles | apply concat_singles].
Qed.

Lemma three_posted :
  posted_in_turn (queue a_queue) (srv empty_world)
    (batches (Z.to_nat 2) (map question_of three))
    [firstn 2 three_stored; skipn 2 three_stored] three_stored.
Proof. repeat (econstructor; [reflexivity | reflexivity | reflexivity |]). constructor. Qed.

(** C1 at work: three triples in pages of two are two posts. *)
Lemma addall_posts_batches_witness :
  (1 <= 2)%Z
  /\ addall a_queue three 2 empty_world
     = ({| srv := three_stored;
           wire := map (questions_post (queue a_queue))
                       [firstn 2 (map question_of three);
                        skipn 2 (map question_of three)] |},
        Ok three_stored)
  /\ (exists w1, addones a_queue three empty_world = (w1, Ok three_stored)
                 /\ srv w1 = three_stored).
Proof.
  assert (P : (1 <= 2)%Z) by lia.
  destruct (addall_posts_batches a_queue three empty_world P three_posted)
    as (E & _ & _ & _ & O).
  split; [exact P|]. split; [exact E|].
  apply O; [repeat constructor | apply service_batch_as_singles].
Defined.

(** C1 as the claim words it, for every page size, fails at page size 0:
    the one post carries a question, more than the page size. *)
Lemma addall_pagesize_zero :
  ~ (forall (pagesize : Z) (three_tuples : list (pyval * pyval * dict)),
       Forall (fun r => (payload_size r <= pagesize)%Z)
              (wire (fst (addall a_queue three_tuples pagesize empty_world)))).
Proof.
  intros H. specialize (H 0%Z [a1]). vm_compute in H.
  inversion H as [|r l Hr _]; subst. apply Hr. reflexivity.
Qed.

Lemma three_served (body : pyval) :
  truthy body = true ->
  serves_slices (srv three_world) (queue a_queue) VNone
                (getall_extras body (VBool false) VNone) 2 three_stored.
Proof.
  intros B offset. unfold getall_extras. rewrite B.
  do 2 eexists. split; [reflexivity|].
  cbn. rewrite Nat2Z.id. reflexivity.
Qed.

(** C2 at work: three questions in pages of two are two requests. *)
Lemma getall_fetches_every_page_witness :
  (1 <= 2)%Z
  /\ getall 2 a_queue VNone (VBool true) (VBool false) VNone 2 three_world
     = ({| srv := three_stored;
           wire := map (page_request (queue a_queue) VNone
                          [("body", VBool true)] 2) [0; 2]%Z |},
        Ok (map RabjQuestion.Build_t three_stored)).
Proof.
  assert (P : (1 <= 2)%Z) by lia.
  split; [exact P|].
  refine (proj1 (getall_fetches_every_page (fuel := 2) a_queue
                   (VBool true) (VBool false) VNone three_world P
                   (three_served (VBool true) eq_refl) _ _)).
  - repeat constructor.
  - vm_compute. lia.
Defined.

Lemma getall_pagesize_zero_loops (fuel : nat) :
  forall (acc : list RabjQuestion.t) (sent : list request),
    snd (getall_loop fuel a_queue VNone 0
           (page_params [("body", VBool true)] 0 0) acc
           {| srv := []; wire := sent |})
    = OutOfFuel.
Proof.
  induction fuel as [|fuel IH]; intros acc sent; [reflexivity|].
  erewrite getall_page with (items := []);
    [| reflexivity | reflexivity | constructor].
  simpl. apply IH.
Qed.

(** C2 as the claim words it, for every page size, fails at page size 0:
    no page is ever short, and [getall] returns from no number of turns. *)
Lemma getall_pagesize_zero :
  ~ (exists (fuel : nat) (w' : world) (questions : list RabjQuestion.t),
       getall fuel a_queue VNone (VBool true) (VBool false) VNone 0
              empty_world
       = (w', Ok questions)).
Proof.
  intros (fuel & w' & qs & H).
  pose proof (getall_pagesize_zero_loops fuel [] []) as L.
  unfold getall in H. change (getall_params _ _ _ _)
    with (page_params [("body", VBool true)] 0 0) in H.
  unfold empty_world in H. rewrite H in L. discriminate L.
Qed.

(** C4 at work: the cached snapshot answers the property. *)
Lemma status_cached_until_reset_witness :
  statusonce a_queue three_world
  = ({| srv := three_stored; wire := [status_request (queue a_queue) []] |},
     Ok (cached (simple_status (VInt 0) (VInt 0) (VInt 3) (VInt 0) (VInt 3)),
         simple_status (VInt 0) (VInt 0) (VInt 3) (VInt 0) (VInt 3)))
  /\ property questions
       (cached (simple_status (VInt 0) (VInt 0) (VInt 3) (VInt 0) (VInt 3)))
       empty_world
     = (empty_world,
        Ok (cached (simple_status (VInt 0) (VInt 0) (VInt 3) (VInt 0) (VInt 3)),
            VInt 3)).
Proof.
  assert (H : statusonce a_queue three_world
              = ({| srv := three_stored;
                    wire := [status_request (queue a_queue) []] |},
                 Ok (cached (simple_status (VInt 0) (VInt 0) (VInt 3) (VInt 0)
                                           (VInt 3)),
                     simple_status (VInt 0) (VInt 0) (VInt 3) (VInt 0)
                                   (VInt 3))))
    by reflexivity.
  split; [exact H|].
  exact (proj1 (status_cached_until_reset a_queue three_world H) questions
               empty_world).
Defined.

(** C6 at work: votes that are no integer stop the call before the post,
    votes that are one are posted as that integer. *)
Lemma create_queue_checks_votes_witness :
  bind_kwargs ["self"; "name"; "owner"; "votes"; "access_key"; "tags"]
              [("note", VStr "x")] = inr tt
  /\ RabjServer.create_queue a_server (VStr "doc queue") (VStr "/user/x")
       (VStr "one") (VStr "k") VNone [("note", VStr "x")] empty_world
     = (empty_world, Raise ValueError)
  /\ dict_lookup
       (queue_record (VStr "doc queue") (VStr "/user/x") (VStr "k") VNone 12
                     [("note", VStr "x")]) "votes"
     = Some (VInt 12).
Proof.
  assert (K : bind_kwargs
                ["self"; "name"; "owner"; "votes"; "access_key"; "tags"]
                [("note", VStr "x")] = inr tt) by reflexivity.
  split; [exact K|]. split.
  - exact (proj1 (proj1 (create_queue_checks_votes a_server (VStr "doc queue")
                           (VStr "/user/x") (VStr "one") (VStr "k") VNone
                           _ empty_world K)
                        ValueError eq_refl)).
  - exact (proj1 (proj2 (create_queue_checks_votes a_server (VStr "doc queue")
                           (VStr "/user/x") (VStr "12") (VStr "k") VNone
                           _ empty_world K)
                        12%Z eq_refl)).
Defined.

(** C10 at work: eight threads are stored as two workers. *)
Lemma get_is_sequential_witness :
  init (queue a_queue) VNone VNone VNone 8 empty_world
  = (empty_world,
     Ok {| queue := queue a_queue; threads := 2;
           _status_fetched := false; _status := VNone |})
  /\ threads {| queue := queue a_queue; threads := 2;
               _status_fetched := false; _status := VNone |} = 2%Z.
Proof.
  assert (H : init (queue a_queue) VNone VNone VNone 8 empty_world
              = (empty_world,
                 Ok {| queue := queue a_queue; threads := 2;
                       _status_fetched := false; _status := VNone |}))
    by reflexivity.
  split; [exact H|].
  exact (proj1 (get_is_sequential _ _ _ _ _ _ H)).
Defined.

(** C8, on the code.  [completed_questions] and [incomplete_questions] take
    a [body] argument and do not pass it on: they are [getall] with [body]
    at its default, [True].  On the service, which sends the ids alone
    when [body] is not asked for, [completed_questions] with [body=False]
    returns the full records where [getall] with [state='complete'] and
    [body=False] returns the ids. *)
Theorem completed_questions_drops_body :
  (forall (C : Collaborator) (fuel : nat) (self : t)
          (body judgments since : pyval) (pagesize : Z),
     completed_questions fuel self body judgments since pagesize
     = getall fuel self (VStr "complete") (VBool true) judgments since pagesize
     /\ incomplete_questions fuel self body judgments since pagesize
        = getall fuel self (VStr "wanting") (VBool true) judgments since
                 pagesize)
  /\ snd (completed_questions 2 a_queue (VBool false) (VBool false) VNone 5
                              three_world)
     = Ok (map RabjQuestion.Build_t three_stored)
  /\ snd (getall 2 a_queue (VStr "complete") (VBool false) (VBool false) VNone
                 5 three_world)
     = Ok (map RabjQuestion.Build_t (map id_only three_stored))
  /\ snd (incomplete_questions 2 a_queue (VBool false) (VBool false) VNone 5
                               three_world)
     <> snd (getall 2 a_queue (VStr "wanting") (VBool false) (VBool false)
                    VNone 5 three_world).
Proof.
  split; [intros; split; reflexivity|].
  split; [reflexivity|]. split; [reflexivity|].
  vm_compute. discriminate.
Qed.

(** Without an argument, on the service, [getone] raises: the response
    metadata holds no question. *)
Lemma getone_arbitrary_on_service :
  snd (getone a_queue VNone three_world) = Raise KeyError.
Proof. reflexivity. Qed.

End OnTheService.

(** * The other methods *)

(** ** Queue ids *)

Section QueueIds.
Local Open Scope string_scope.
Import RabjServer.

Lemma startswith_true (s pre : string) :
  startswith s pre = true <-> exists rest, s = pre ++ rest.
Proof.
  unfold startswith. revert pre.
  induction s as [|a s IH]; intros [|b pre]; simpl.
  - split; [exists ""; reflexivity | reflexivity].
  - split; [discriminate | intros [rest H]; discriminate H].
  - split; [exists (String a s); reflexivity | reflexivity].
  - destruct (ascii_dec b a) as [->|N].
    + rewrite IH. split; intros [rest H]; exists rest; congruence.
    + split; [discriminate | intros [rest H]; congruence].
Qed.

Lemma slice_from_app (a b : string) :
  slice_from (a ++ b) (String.length a) = b.
Proof.
  unfold slice_from. rewrite length_append.
  replace (String.length a + String.length b - String.length a)%nat
    with (String.length b) by lia.
  apply substring_tail.
Qed.

Lemma norm_qid_rabj_store (rest : string) :
  _norm_qid ("/rabj/store" ++ rest) = rest.
Proof.
  unfold _norm_qid.
  assert (E : startswith ("/rabj/store" ++ rest) "/rabj/store" = true)
    by (apply startswith_true; now exists rest).
  rewrite E. exact (slice_from_app "/rabj/store" rest).
Qed.

Lemma norm_qid_store (rest : string) : _norm_qid ("/store" ++ rest) = rest.
Proof.
  unfold _norm_qid.
  destruct (startswith ("/store" ++ rest) "/rabj/store") eqn:E1.
  { apply startswith_true in E1 as [r E1]. discriminate E1. }
  assert (E : startswith ("/store" ++ rest) "/store" = true)
    by (apply startswith_true; now exists rest).
  rewrite E. exact (slice_from_app "/store" rest).
Qed.

(** X1.  [_norm_qid] drops a leading [/rabj/store], or else a leading
    [/store], and returns what follows; an id with neither prefix comes
    back unchanged. *)
Theorem norm_qid_drops_store_prefix (qid : string) :
  (forall rest, qid = "/rabj/store" ++ rest -> _norm_qid qid = rest)
  /\ (forall rest, qid = "/store" ++ rest -> _norm_qid qid = rest)
  /\ ((forall rest, qid <> "/rabj/store" ++ rest) ->
      (forall rest, qid <> "/store" ++ rest) ->
      _norm_qid qid = qid).
Proof.
  repeat split.
  - intros rest ->. apply norm_qid_rabj_store.
  - intros rest ->. apply norm_qid_store.
  - intros H1 H2. unfold _norm_qid.
    destruct (startswith qid "/rabj/store") eqn:E1.
    { apply startswith_true in E1 as [r E1]. now apply H1 in E1. }
    destruct (startswith qid "/store") eqn:E2.
    { apply startswith_true in E2 as [r E2]. now apply H2 in E2. }
    reflexivity.
Qed.

End QueueIds.

(** ** Fields of a record *)

Section Items.

Lemma dict_lookup_del (d : dict) (k k' : string) :
  dict_lookup (dict_del d k) k'
  = if String.eqb k' k then None else dict_lookup d k'.
Proof.
  unfold dict_del. induction d as [|[k0 v0] d IH]; simpl.
  - now destruct (String.eqb k' k).
  - destruct (String.eqb k k0) eqn:E; simpl.
    + apply String.eqb_eq in E as <-. rewrite IH.
      now destruct (String.eqb k' k).
    + rewrite IH. destruct (String.eqb k' k0) eqn:E0; [|reflexivity].
      apply String.eqb_eq in E0 as ->.
      now rewrite String.eqb_sym, E.
Qed.

Lemma eqb_other (k other : string) : other <> k -> String.eqb other k = false.
Proof. intros N. now apply String.eqb_neq. Qed.

(** X2.  On a question whose record is a dict: after [q[key] = value],
    [q[key]] is [value] and every other field reads as before; after
    [del q[key]], [q[key]] raises [KeyError] and every other field reads
    as before; [del] of a field that is not there raises [KeyError]. *)
Theorem question_fields_round_trip (self : RabjQuestion.t) (d : dict)
    (key : string) (value : pyval) :
  RabjQuestion.question self = VDict d ->
  (exists set,
     QuestionOps.__setitem__ self key value = inr set
     /\ QuestionOps.__getitem__ set key = inr value
     /\ (forall other, other <> key ->
           QuestionOps.__getitem__ set other
           = QuestionOps.__getitem__ self other)
     /\ exists gone,
          QuestionOps.__delitem__ set key = inr gone
          /\ QuestionOps.__getitem__ gone key = inl KeyError
          /\ (forall other, other <> key ->
                QuestionOps.__getitem__ gone other
                = QuestionOps.__getitem__ self other))
  /\ (dict_lookup d key = None ->
      QuestionOps.__delitem__ self key = inl KeyError).
Proof.
  intros E.
  unfold QuestionOps.__setitem__, QuestionOps.__getitem__,
    QuestionOps.__delitem__.
  rewrite E. simpl. split.
  - eexists. split; [reflexivity|]. simpl.
    rewrite dict_lookup_set, String.eqb_refl. split; [reflexivity|]. split.
    + intros other N. now rewrite dict_lookup_set, (eqb_other N).
    + unfold has_key. rewrite dict_lookup_set, String.eqb_refl.
      eexists. split; [reflexivity|]. simpl.
      rewrite dict_lookup_del, String.eqb_refl. split; [reflexivity|].
      intros other N.
      now rewrite dict_lookup_del, (eqb_other N), dict_lookup_set,
        (eqb_other N).
  - intros N. unfold has_key. now rewrite N.
Qed.

End Items.

(** ** Constructors given an empty record *)

Section EmptyRecords.
Context {C : Collaborator}.

(** X3.  A record that is not [None] but false in a condition (an empty
    dict, say), given without a reference, passes the assertion of the
    constructors and is then not used: [RabjQuestion] sends
    [RabjCallable(None)[None].get()] and [RabjQueue] sends
    [RabjCallable(None, access_key=None)[None].get()], and the object wraps
    what that request returns. *)
Theorem empty_record_is_fetched (record : pyval) (threads : Z) (w : world) :
  is_not_None record = true ->
  truthy record = false ->
  RabjQuestion.init record VNone VNone w
  = bind (call blind_question_get)
         (fun p => ret {| RabjQuestion.question := snd p |}) w
  /\ RabjQueue.init record VNone VNone VNone threads w
     = bind (call blind_queue_get)
            (fun p => ret (queue_of threads (snd p))) w.
Proof.
  intros N T. unfold RabjQuestion.init, RabjQueue.init. simpl.
  rewrite N, T. simpl. split.
  - rewrite bind_ret, bind_bind.
    change (get (sub (at_root (Url VNone None)) VNone) [])
      with (call blind_question_get).
    unfold bind. destruct (call blind_question_get w) as [w' [[resp q]| |]];
      reflexivity.
  - rewrite bind_ret, bind_bind.
    change (get (sub (at_root (Url VNone (Some VNone))) VNone) [])
      with (call blind_queue_get).
    unfold bind. destruct (call blind_queue_get w) as [w' [[resp q]| |]];
      reflexivity.
Qed.

End EmptyRecords.

(** ** Saving a queue *)

Section Saving.
Context {C : Collaborator}.
Import RabjQueue.


End Saving.

(** ** Deleting and fetching a queue *)

Section QueueById.
Context {C : Collaborator}.
Import RabjServer ServerOps.

(** Runs the pure steps of [delete_queue] up to its one request. *)
Ltac run_delete w :=
  cbv beta iota zeta
      delta [bind ret lift raise ServerOps.norm_qid py_get has_get
             queue_delete];
  match goal with
  | |- context [call ?r w] =>
      destruct (call r w) as [? [[? ?]| |]]; reflexivity
  end.

(** X5.  [delete_queue] on a mapping with a string [id] sends one DELETE
    to the normalised id, with the access key given or, when none is given,
    the mapping's own [access_key] field ([None] when it has none); on a
    string id it sends the access key as given; a mapping without [id]
    raises [KeyError] and nothing is sent. *)
Theorem delete_queue_picks_access_key (self : t) (d : dict) (qid : string)
    (access_key : pyval) (w : world) :
  (dict_lookup d "id" = Some (VStr qid) ->
   delete_queue self (Value (VDict d)) access_key w
   = bind (call (queue_delete (store self) (_norm_qid qid)
                   (if is_not_None access_key then access_key
                    else dict_get d "access_key" VNone)))
          (fun p => ret (snd p)) w)
  /\ delete_queue self (Value (VStr qid)) access_key w
     = bind (call (queue_delete (store self) (_norm_qid qid) access_key))
            (fun p => ret (snd p)) w
  /\ (dict_lookup d "id" = None ->
      delete_queue self (Value (VDict d)) access_key w = (w, Raise KeyError)).
Proof.
  unfold delete_queue. repeat split.
  - intros E. unfold has_get, py_getitem. rewrite E.
    destruct (is_not_None access_key); run_delete w.
  - run_delete w.
  - intros E. unfold has_get, py_getitem. now rewrite E.
Qed.

(** X6.  [delete_queue] on a [RabjQueue] without an access key never
    reaches the server: a [RabjQueue] has no [get], so once the id is read
    the call raises [AttributeError].  With an access key it deletes the
    queue of the handle's id. *)
Theorem delete_queue_of_handle (self : t) (queue : RabjQueue.t)
    (access_key : pyval) (w : world) :
  (exists e, delete_queue self (Handle queue) VNone w = (w, Raise e))
  /\ (forall id, QueueOps.__getitem__ queue "id" = inr id ->
        delete_queue self (Handle queue) VNone w = (w, Raise AttributeError))
  /\ (forall qid, QueueOps.__getitem__ queue "id" = inr (VStr qid) ->
        is_not_None access_key = true ->
        delete_queue self (Handle queue) access_key w
        = bind (call (queue_delete (store self) (_norm_qid qid) access_key))
               (fun p => ret (snd p)) w).
Proof.
  unfold delete_queue. repeat split.
  - destruct (QueueOps.__getitem__ queue "id") as [e|id];
      [exists e | exists AttributeError]; reflexivity.
  - intros id E. now rewrite E.
  - intros qid E K. rewrite E, K. run_delete w.
Qed.

(** X7.  [get_queue] reaches the same resource whether the id comes as
    [/rabj/store...], as [/store...] or bare: the request goes to the
    store at what follows the prefix, with the access key; a true record
    answered is returned wrapped, with the worker count of the server. *)
Theorem get_queue_normalises_id (self : t) (rest : string)
    (access_key : pyval) (w : world) :
  get_queue self ("/rabj/store" ++ rest)%string access_key w
  = get_queue self ("/store" ++ rest)%string access_key w
  /\ (exists sent,
        wire (fst (get_queue self ("/rabj/store" ++ rest)%string access_key w))
        = wire w ++ queue_get (store self) rest access_key :: sent)
  /\ (forall (s' : remote) (resp record : pyval),
        transport (srv w) (queue_get (store self) rest access_key)
        = (s', inr (resp, record)) ->
        truthy record = true ->
        get_queue self ("/rabj/store" ++ rest)%string access_key w
        = ({| srv := s';
              wire := wire w ++ [queue_get (store self) rest access_key] |},
           Ok (queue_of (threads self) record))).
Proof.
  unfold get_queue. rewrite norm_qid_rabj_store, norm_qid_store.
  change (get (sub (store self) (VStr rest)) [("access_key"%string, access_key)])
    with (call (queue_get (store self) rest access_key)).
  split; [reflexivity|]. split.
  - pose proof (call_wire (queue_get (store self) rest access_key) w) as W.
    unfold bind at 1.
    destruct (call _ w) as [w1 [[resp record]| |]]; simpl in W |- *;
      try (exists []; exact W).
    destruct (queue_init_appends record (threads self) w1) as [sent S].
    exists sent. rewrite S, W, <- app_assoc. reflexivity.
  - intros s' resp record T R.
    erewrite bind_ok by (apply call_answered; exact T).
    now apply queue_of_record.
Qed.

End QueueById.

(** ** Listing queues *)

Section Listings.
Context {C : Collaborator}.
Import RabjServer ServerOps.

Lemma wrap_queues_records (self : t) (records : list pyval) (w : world) :
  Forall (fun r => truthy r = true) records ->
  wrap_queues self (VList records) w
  = (w, Ok (map (queue_of (threads self)) records)).
Proof.
  intros R. unfold wrap_queues. simpl. rewrite bind_ret.
  induction R as [|r rs T _ IH]; simpl; [reflexivity|].
  unfold bind at 1. rewrite queue_of_record by exact T.
  unfold bind at 1. rewrite IH. reflexivity.
Qed.

Lemma listing_answered (self : t) (r : request) (records : list pyval)
    (w : world) (s' : remote) (resp : pyval) :
  Forall (fun q => truthy q = true) records ->
  transport (srv w) r = (s', inr (resp, VList records)) ->
  bind (call r) (fun p => let '(resp, result) := p in wrap_queues self result) w
  = ({| srv := s'; wire := wire w ++ [r] |},
     Ok (map (queue_of (threads self)) records)).
Proof.
  intros R T. erewrite bind_ok by (apply call_answered; exact T).
  cbv beta iota. now apply wrap_queues_records.
Qed.

(** X8.  Each listing sends one GET and, when the server answers with a
    list of true records, returns one [RabjQueue] per record, in the order
    of the answer, each with the worker count of the server;
    [queues_by_tags] sends a single tag as a list of one tag. *)
Theorem listings_wrap_every_record (self : t) (records : list pyval)
    (access_key owner tags : pyval) (w : world) (s' : remote) (resp : pyval) :
  Forall (fun q => truthy q = true) records ->
  (transport (srv w)
     (listing (store self) [VStr "queues"; VStr "public"] [])
   = (s', inr (resp, VList records)) ->
   public_queues self w
   = ({| srv := s';
         wire := wire w
           ++ [listing (store self) [VStr "queues"; VStr "public"] []] |},
      Ok (map (queue_of (threads self)) records)))
  /\ (transport (srv w)
        (listing (store self) [VStr "queues"; VStr "access_key"]
                 [("access_key"%string, access_key)])
      = (s', inr (resp, VList records)) ->
      queues_by_accesskey self access_key w
      = ({| srv := s';
            wire := wire w
              ++ [listing (store self) [VStr "queues"; VStr "access_key"]
                          [("access_key"%string, access_key)]] |},
         Ok (map (queue_of (threads self)) records)))
  /\ (transport (srv w)
        (listing (store self) [VStr "queues"; VStr "tags"]
                 [("tag"%string, if has_type tags basestring then VList [tags]
                          else tags);
                  ("access_key"%string, access_key)])
      = (s', inr (resp, VList records)) ->
      queues_by_tags self tags access_key w
      = ({| srv := s';
            wire := wire w
              ++ [listing (store self) [VStr "queues"; VStr "tags"]
                          [("tag"%string, if has_type tags basestring
                                   then VList [tags] else tags);
                           ("access_key"%string, access_key)]] |},
         Ok (map (queue_of (threads self)) records)))
  /\ (transport (srv w)
        (listing (store self) [VStr "users"; owner; VStr "queues"]
                 [("access_key"%string, access_key)])
      = (s', inr (resp, VList records)) ->
      queues_by_owner self owner access_key w
      = ({| srv := s';
            wire := wire w
              ++ [listing (store self) [VStr "users"; owner; VStr "queues"]
                          [("access_key"%string, access_key)]] |},
         Ok (map (queue_of (threads self)) records)))
  /\ (forall tag : string,
        queues_by_tags self (VStr tag) access_key w
        = queues_by_tags self (VList [VStr tag]) access_key w).
Proof.
  intros R. repeat split; try reflexivity;
    intros T; apply (listing_answered self _ w R T).
Qed.

End Listings.

(** ** Deleting questions *)

Section DeletingQuestions.
Context {C : Collaborator}.
Import RabjQueue.

Lemma ids_collected (questions : list RabjQuestion.t) (ids : list pyval)
    (w : world) :
  Forall2 (fun q id => QuestionOps.__getitem__ q "id" = inr id) questions ids ->
  mapM (fun q => id <- lift (QuestionOps.__getitem__ q "id") ;;
                 ret (VDict [("id"%string, id)])) questions w
  = (w, Ok (map id_record ids)).
Proof.
  induction 1 as [|q id qs ids E _ IH]; simpl; [reflexivity|].
  unfold bind at 1. erewrite bind_lift by exact E.
  unfold ret at 1. unfold bind at 1. rewrite IH. reflexivity.
Qed.

Lemma ids_missing (questions : list RabjQuestion.t) (w : world) :
  Exists (fun q => forall id, QuestionOps.__getitem__ q "id" <> inr id)
         questions ->
  exists e,
    mapM (fun q => id <- lift (QuestionOps.__getitem__ q "id") ;;
                   ret (VDict [("id"%string, id)])) questions w
    = (w, Raise e).
Proof.
  induction questions as [|q qs IH]; intros H; [inversion H|].
  simpl. unfold bind at 1.
  destruct (QuestionOps.__getitem__ q "id") as [e|id] eqn:E.
  - exists e. reflexivity.
  - unfold lift at 1. rewrite bind_ret. unfold ret at 1. cbv beta iota.
    inversion H as [? ? Hq|? ? Hqs]; subst.
    + now destruct (Hq id).
    + destruct (IH Hqs) as [e R]. exists e. now erewrite bind_raise by exact R.
Qed.

(** X9.  [delete] sends one DELETE whose [questions] are the ids of the
    questions given, each as [{'id': id}] and nothing else of the question,
    in the order given, and returns the body of the answer; when a question
    has no [id], it raises and nothing is sent. *)
Theorem delete_sends_ids_only (self : t) (questions : list RabjQuestion.t)
    (ids : list pyval) (w : world) :
  (Forall2 (fun q id => QuestionOps.__getitem__ q "id" = inr id)
           questions ids ->
   QueueOps.delete self questions w
   = bind (call (questions_delete (queue self) ids))
          (fun p => ret (snd p)) w)
  /\ (Exists (fun q => forall id, QuestionOps.__getitem__ q "id" <> inr id)
             questions ->
      exists e, QueueOps.delete self questions w = (w, Raise e)).
Proof.
  unfold QueueOps.delete. split.
  - intros H. erewrite bind_ok by (apply ids_collected; exact H).
    unfold questions_delete, bind.
    match goal with |- context [call ?r w] =>
      destruct (call r w) as [w' [[resp result]| |]] end; reflexivity.
  - intros H. destruct (ids_missing w H) as [e R].
    exists e. now erewrite bind_raise by exact R.
Qed.

(** A run of [getall] on a server that serves the slices of a list. *)
Lemma getall_on_slices (fuel : nat) (self : t)
    (state body judgments since : pyval) (pagesize : Z)
    (matching : list pyval) (w : world) :
  (1 <= pagesize)%Z ->
  serves_slices (srv w) (queue self) state
                (getall_extras body judgments since) pagesize matching ->
  Forall (fun q => truthy q = true) matching ->
  (List.length matching / Z.to_nat pagesize < fuel)%nat ->
  getall fuel self state body judgments since pagesize w
  = ({| srv := srv w;
        wire := wire w
          ++ map (page_request (queue self) state
                    (getall_extras body judgments since) pagesize)
                 (offsets pagesize 0
                    (List.length matching / Z.to_nat pagesize + 1)) |},
     Ok (map RabjQuestion.Build_t matching)).
Proof.
  intros HP Hserve R Hfuel.
  assert (Hp : (1 <= Z.to_nat pagesize)%nat) by lia.
  pose proof (Z2Nat.id pagesize ltac:(lia)) as Eid.
  rewrite <- Eid in Hserve.
  pose proof (getall_loop_slices self Hp Hserve R fuel 0 [] (wire w)) as E.
  rewrite Eid in E. simpl in E. rewrite world_eta in E.
  unfold getall. rewrite getall_params_shape.
  rewrite E; [now rewrite Nat.sub_0_r | lia |].
  pose proof (Nat.mul_succ_div_gt (List.length matching) (Z.to_nat pagesize)).
  nia.
Qed.

(** X10.  On a server that serves the slices of the list of the queue's
    questions (true records with ids), [deleteall] reads every page of 5000
    with the default filters and then sends one DELETE that names every
    question by its id, in the order read; it returns the body of that
    answer. *)
Theorem deleteall_reads_then_deletes (fuel : nat) (self : t)
    (matching ids : list pyval) (w : world) (s' : remote)
    (resp result : pyval) :
  serves_slices (srv w) (queue self) VNone
                (getall_extras (VBool true) (VBool false) VNone) 5000
                matching ->
  Forall (fun q => truthy q = true) matching ->
  Forall2 (fun q id => py_getitem q "id" = inr id) matching ids ->
  (List.length matching / 5000 < fuel)%nat ->
  transport (srv w) (questions_delete (queue self) ids)
  = (s', inr (resp, result)) ->
  QueueOps.deleteall fuel self w
  = ({| srv := s';
        wire := (wire w
                 ++ map (page_request (queue self) VNone
                           (getall_extras (VBool true) (VBool false) VNone)
                           5000)
                        (offsets 5000 0 (List.length matching / 5000 + 1)))
                ++ [questions_delete (queue self) ids] |},
     Ok result).
Proof.
  intros Hserve R Hids Hfuel T.
  unfold QueueOps.deleteall, QueueOps.all_questions.
  erewrite bind_ok;
    [| apply (getall_on_slices (fuel := fuel) self (VBool true) (VBool false)
                VNone w (pagesize := 5000) (matching := matching));
       [lia | exact Hserve | exact R |
        change (Z.to_nat 5000) with 5000%nat; exact Hfuel]].
  change (Z.to_nat 5000) with 5000%nat.
  assert (H2 : Forall2 (fun q id => QuestionOps.__getitem__ q "id" = inr id)
                       (map RabjQuestion.Build_t matching) ids).
  { clear - Hids. induction Hids; simpl; constructor; auto. }
  unfold QueueOps.delete.
  erewrite bind_ok by (apply ids_collected; exact H2).
  erewrite bind_ok by (apply call_answered; exact T).
  reflexivity.
Qed.

End DeletingQuestions.

(** ** More on getall *)

Section MorePaging.
Context {C : Collaborator}.
Import RabjQueue.

Lemma bind_ext {A B} (c : M A) (k k' : A -> M B) (w : world) :
  (forall a w', k a w' = k' a w') -> bind c k w = bind c k' w.
Proof.
  intros H. unfold bind. destruct (c w) as [w' [a| |]]; auto.
Qed.

Lemma lift_ok_inv {A} (x : exn + A) (a : A) (w w' : world) :
  lift x w = (w', Ok a) -> x = inr a /\ w' = w.
Proof.
  destruct x; simpl; unfold raise, ret; intros [= -> ->] || discriminate.
  auto.
Qed.

Lemma py_len_nonneg (x : pyval) (n : Z) : py_len x = inr n -> (0 <= n)%Z.
Proof. destruct x; simpl; try discriminate; intros [= <-]; lia. Qed.

Lemma getall_loop_without_state (self : t) (state : pyval) (pagesize : Z) :
  truthy state = false ->
  forall (fuel : nat) (params : dict) (acc : list RabjQuestion.t) (w : world),
    getall_loop fuel self state pagesize params acc w
    = getall_loop fuel self VNone pagesize params acc w.
Proof.
  intros F. induction fuel as [|fuel IH]; intros params acc w;
    [reflexivity|].
  cbn [getall_loop]. rewrite F. cbn [truthy].
  apply bind_ext. intros [resp result] w1.
  apply bind_ext. intros page w2.
  apply bind_ext. intros items w3.
  apply bind_ext. intros wrapped w4.
  apply bind_ext. intros n w5.
  destruct (n <? pagesize)%Z; [reflexivity|].
  apply bind_ext. intros offset w6.
  apply bind_ext. intros limit w7.
  apply bind_ext. intros offset' w8.
  apply IH.
Qed.

(** X11.  A [state] that is false in a condition (the empty string, 0, an
    empty list) is no filter: [getall] runs as it does without [state], its
    requests going to the queue's [questions] and not to [questions[state]]. *)
Theorem getall_ignores_false_state (fuel : nat) (self : t)
    (state body judgments since : pyval) (pagesize : Z) (w : world) :
  truthy state = false ->
  getall fuel self state body judgments since pagesize w
  = getall fuel self VNone body judgments since pagesize w.
Proof. intros F. unfold getall. now apply getall_loop_without_state. Qed.

Lemma getall_loop_needs_short_page (self : t) (state : pyval) (pagesize : Z) :
  (pagesize <= 0)%Z ->
  forall (fuel : nat) (params : dict) (acc : list RabjQuestion.t)
         (w w' : world) (questions : list RabjQuestion.t),
    getall_loop fuel self state pagesize params acc w <> (w', Ok questions).
Proof.
  intros HP. induction fuel as [|fuel IH]; intros params acc w w' qs H.
  - discriminate H.
  - cbn [getall_loop] in H.
    apply bind_ok_inv in H as (w1 & [resp result] & _ & H).
    apply bind_ok_inv in H as (w2 & page & _ & H).
    apply bind_ok_inv in H as (w3 & items & _ & H).
    apply bind_ok_inv in H as (w4 & wrapped & _ & H).
    apply bind_ok_inv in H as (w5 & n & Hn & H).
    apply lift_ok_inv in Hn as [Hn _]. apply py_len_nonneg in Hn.
    destruct (Z.ltb_spec n pagesize) as [Short|_]; [lia|].
    apply bind_ok_inv in H as (w6 & offset & _ & H).
    apply bind_ok_inv in H as (w7 & limit & _ & H).
    apply bind_ok_inv in H as (w8 & offset' & _ & H).
    exact (IH _ _ _ _ _ H).
Qed.

(** X12.  With a page size of 0 or less no page counts as short, so
    [getall] returns from no number of turns of its loop, whatever the
    server answers: it goes on requesting, or stops with an error. *)
Theorem getall_nonpositive_pagesize_never_returns (fuel : nat) (self : t)
    (state body judgments since : pyval) (pagesize : Z) (w : world) :
  (pagesize <= 0)%Z ->
  forall (w' : world) (questions : list RabjQuestion.t),
    getall fuel self state body judgments since pagesize w
    <> (w', Ok questions).
Proof.
  intros HP w' qs. unfold getall. now apply getall_loop_needs_short_page.
Qed.

(** X13.  When the first page holds fewer true records than the page size,
    [getall] returns these records wrapped after that one request; when the
    first answer has no [questions], it raises right after that request. *)
Theorem getall_stops_at_first_short_page (fuel : nat) (self : t)
    (state body judgments since : pyval) (pagesize : Z) (w : world)
    (s' : remote) (resp result : pyval) :
  transport (srv w)
    (page_request (queue self) state (getall_extras body judgments since)
                  pagesize 0)
  = (s', inr (resp, result)) ->
  (forall items : list pyval,
     py_getitem result "questions" = inr (VList items) ->
     Forall (fun q => truthy q = true) items ->
     (Z.of_nat (List.length items) < pagesize)%Z ->
     getall (S fuel) self state body judgments since pagesize w
     = ({| srv := s';
           wire := wire w
             ++ [page_request (queue self) state
                   (getall_extras body judgments since) pagesize 0] |},
        Ok (map RabjQuestion.Build_t items)))
  /\ (forall e : exn,
        py_getitem result "questions" = inl e ->
        getall (S fuel) self state body judgments since pagesize w
        = ({| srv := s';
              wire := wire w
                ++ [page_request (queue self) state
                      (getall_extras body judgments since) pagesize 0] |},
           Raise e)).
Proof.
  intros T. unfold getall. rewrite getall_params_shape. split.
  - intros items Q R Short.
    erewrite getall_page; [| exact T | exact Q | exact R].
    apply Z.ltb_lt in Short. now rewrite Short.
  - intros e Q. cbn [getall_loop].
    assert (E : (if truthy state
                 then get (sub (attr (at_root (Obj (queue self))) "questions")
                               state)
                          (page_params (getall_extras body judgments since)
                                       pagesize 0)
                 else get (attr (at_root (Obj (queue self))) "questions")
                          (page_params (getall_extras body judgments since)
                                       pagesize 0))
                = call (page_request (queue self) state
                          (getall_extras body judgments since) pagesize 0)).
    { unfold page_request. destruct (truthy state); reflexivity. }
    rewrite E. erewrite bind_ok by (apply call_answered; exact T).
    cbv beta iota. unfold bind, lift, raise. now rewrite Q.
Qed.

End MorePaging.

(** ** More on addall and addone *)

Section MoreAdding.
Context {C : Collaborator}.
Import RabjQueue.

Lemma addall_loop_never_full (self : t) (pagesize : Z)
    (three_tuples : list (pyval * pyval * dict)) :
  (pagesize <= 0)%Z ->
  forall (added payload : list pyval) (w : world),
    addall_loop self pagesize three_tuples added payload w
    = (w, Ok (added, payload ++ map question_of three_tuples)).
Proof.
  intros HP.
  induction three_tuples as [|[[assertion answerspace] meta] rest IH];
    intros added payload w; simpl.
  - now rewrite app_nil_r.
  - assert (E : (Z.of_nat
                   (List.length
                      (payload ++ [new_question assertion answerspace meta]))
                 =? pagesize)%Z = false).
    { apply Z.eqb_neq. rewrite length_app. simpl. lia. }
    rewrite E, IH, <- app_assoc. reflexivity.
Qed.

(** X14.  With a page size of 0 or less no batch is ever full: [addall]
    sends nothing while it reads its input and then posts all the
    questions, however many, in one request. *)
Theorem addall_nonpositive_pagesize_posts_once (self : t)
    (three_tuples : list (pyval * pyval * dict)) (pagesize : Z) (w : world)
    (s' : remote) (resp result questions : pyval) (items : list pyval) :
  (pagesize <= 0)%Z ->
  three_tuples <> [] ->
  transport (srv w)
    (questions_post (queue self) (map question_of three_tuples))
  = (s', inr (resp, result)) ->
  py_getitem result "questions" = inr questions ->
  py_iter questions = inr items ->
  addall self three_tuples pagesize w
  = ({| srv := s';
        wire := wire w
          ++ [questions_post (queue self) (map question_of three_tuples)] |},
     Ok items).
Proof.
  intros HP N T Q I. rewrite addall_unfold.
  erewrite bind_ok by (apply addall_loop_never_full; exact HP).
  unfold flush.
  destruct three_tuples as [|t rest]; [now destruct N|].
  change ([] ++ map question_of (t :: rest))
    with (map question_of (t :: rest)).
  change (negb (List.length (map question_of (t :: rest)) =? 0)%nat) with true.
  cbv iota.
  now rewrite (post_questions_answered self (map question_of (t :: rest)) w
                 _ T Q I).
Qed.

(** X15.  For a valid triple, [addall] on that one triple does what
    [addone] does, at any page size: it sends the same single post, and
    returns the items of what [addone] returns. *)
Theorem addall_of_one_is_addone (self : t) (assertion answerspace : pyval)
    (meta : dict) (pagesize : Z) (w : world) :
  valid_triple (assertion, answerspace, meta) ->
  addall self [(assertion, answerspace, meta)] pagesize w
  = bind (addone self assertion answerspace meta)
         (fun questions => lift (py_iter questions)) w.
Proof.
  unfold valid_triple. simpl. intros V.
  unfold addall, addone. rewrite V. cbn [addall_loop app List.length].
  change (Z.of_nat 1) with 1%Z.
  destruct (1 =? pagesize)%Z;
    cbv beta iota zeta
        delta [bind ret lift raise negb Datatypes.length Nat.eqb app];
    repeat match goal with
           | |- context [post_questions ?s ?p w] =>
               destruct (post_questions s p w) as [? [[? ?]| |]]
           | |- context [py_getitem ?r ?k] => destruct (py_getitem r k)
           | |- context [py_iter ?q] => destruct (py_iter q)
           end;
    reflexivity.
Qed.

End MoreAdding.

(** ** More on create_queue *)

Section MoreCreateQueue.
Context {C : Collaborator}.
Import RabjServer.

Lemma create_queue_first_post (self : t)
    (name owner votes access_key tags : pyval) (meta : dict) (n : Z)
    (w : world) :
  bind_kwargs ["self"; "name"; "owner"; "votes"; "access_key"; "tags"]%string
              meta = inr tt ->
  py_int votes = inr n ->
  exists sent,
    wire (fst (create_queue self name owner votes access_key tags meta w))
    = wire w
      ++ queue_post (store self)
           (queue_record name owner access_key tags n meta) :: sent.
Proof.
  intros K E. unfold create_queue. rewrite K.
  unfold bind at 1. simpl. unfold bind at 1. rewrite E. simpl.
  fold (queue_record name owner access_key tags n meta).
  unfold bind at 1.
  change (post (attr (store self) "queues")
            [("queue"%string,
              VDict (queue_record name owner access_key tags n meta))])
    with (call (queue_post (store self)
                  (queue_record name owner access_key tags n meta))).
  pose proof (call_wire (queue_post (store self)
                (queue_record name owner access_key tags n meta)) w) as W.
  destruct (call _ w) as [w1 [[resp queue]| |]]; simpl in W |- *;
    try (exists []; exact W).
  destruct (queue_init_appends queue (threads self) w1) as [sent S].
  exists sent. rewrite S, W, <- app_assoc. reflexivity.
Qed.

(** X16.  The record [create_queue] posts holds [name], [owner] and
    [access_key] as given, [tags] as given or an empty list when [tags] is
    [None], and every field of [meta]. *)
Theorem create_queue_posts_every_field (self : t)
    (name owner votes access_key tags : pyval) (meta : dict) (n : Z)
    (w : world) :
  bind_kwargs ["self"; "name"; "owner"; "votes"; "access_key"; "tags"]%string
              meta = inr tt ->
  py_int votes = inr n ->
  exists record sent,
    wire (fst (create_queue self name owner votes access_key tags meta w))
    = wire w ++ queue_post (store self) record :: sent
    /\ dict_lookup record "name" = Some name
    /\ dict_lookup record "owner" = Some owner
    /\ dict_lookup record "access_key" = Some access_key
    /\ dict_lookup record "tags"
       = Some (if is_not_None tags then tags else VList [])
    /\ (forall (k : string) (v : pyval),
          dict_lookup meta k = Some v -> dict_lookup record k = Some v).
Proof.
  intros K E.
  destruct (@create_queue_first_post self name owner votes access_key tags
              meta n w K E) as [sent W].
  exists (queue_record name owner access_key tags n meta), sent.
  split; [exact W|].
  unfold queue_record.
  repeat split;
    try (rewrite dict_lookup_update, (bind_kwargs_fresh _ _ _ K);
         [reflexivity | simpl; auto 10]).
  intros k v H. now rewrite dict_lookup_update, H.
Qed.

End MoreCreateQueue.

(** ** The other methods on the service *)

Section OnTheDesk.
Import MemoryStore.
Local Open Scope string_scope.

Lemma desk_serves_three :
  serves_slices (C := Desk.service) (srv Desk.desk_world)
    (RabjQueue.queue a_queue) VNone
    (getall_extras (VBool true) (VBool false) VNone) 5000 three_stored.
Proof.
  intros offset. do 2 eexists. split; [reflexivity|].
  cbn -[Z.to_nat firstn skipn]. rewrite Nat2Z.id. reflexivity.
Qed.

(** X2 at work. *)
Lemma question_fields_round_trip_witness :
  RabjQuestion.question {| RabjQuestion.question := VDict [("id", VInt 7)] |}
  = VDict [("id", VInt 7)]
  /\ (exists set,
        QuestionOps.__setitem__
          {| RabjQuestion.question := VDict [("id", VInt 7)] |}
          "note" (VStr "x") = inr set
        /\ QuestionOps.__getitem__ set "note" = inr (VStr "x")
        /\ QuestionOps.__getitem__ set "id" = inr (VInt 7))
  /\ QuestionOps.__delitem__
       {| RabjQuestion.question := VDict [("id", VInt 7)] |} "note"
     = inl KeyError.
Proof.
  pose proof (@question_fields_round_trip
                {| RabjQuestion.question := VDict [("id", VInt 7)] |}
                [("id", VInt 7)] "note" (VStr "x") eq_refl) as [S D].
  split; [reflexivity|]. split.
  - destruct S as (set & H1 & H2 & H3 & _). exists set.
    split; [exact H1|]. split; [exact H2|].
    rewrite H3 by discriminate. reflexivity.
  - apply D. reflexivity.
Defined.

(** X3 at work: the empty record is not wrapped, the constructor asks the
    service, which knows no such address. *)
Lemma empty_record_is_fetched_witness :
  is_not_None (VDict []) = true
  /\ truthy (VDict []) = false
  /\ RabjQuestion.init (VDict []) VNone VNone Desk.nowhere
     = (@Build_world Desk.service [] [blind_question_get],
        Raise (RemoteError "404")).
Proof.
  split; [reflexivity|]. split; [reflexivity|].
  exact (proj1 (@empty_record_is_fetched Desk.service (VDict []) 1
                  Desk.nowhere eq_refl eq_refl)).
Defined.


(** X8 at work: the two queues of the directory, wrapped in order. *)
Lemma listings_wrap_every_record_witness :
  Forall (fun q => truthy q = true) Desk.directory
  /\ ServerOps.public_queues a_server Desk.nowhere
     = (@Build_world Desk.service []
          [listing (RabjServer.store a_server)
                   [VStr "queues"; VStr "public"] []],
        Ok [queue_of 1 Desk.queue1; queue_of 1 Desk.queue2]).
Proof.
  assert (R : Forall (fun q => truthy q = true) Desk.directory)
    by (repeat constructor).
  split; [exact R|].
  exact (proj1 (@listings_wrap_every_record Desk.service a_server
                  Desk.directory VNone VNone VNone Desk.nowhere _ _ R)
               eq_refl).
Defined.

(** X10 at work: one page read, three ids deleted. *)
Lemma deleteall_reads_then_deletes_witness :
  (List.length three_stored / 5000 < 1)%nat
  /\ QueueOps.deleteall 1 a_queue Desk.desk_world
     = (@Build_world Desk.service []
          [page_request (RabjQueue.queue a_queue) VNone
             [("body", VBool true)] 5000 0;
           questions_delete (RabjQueue.queue a_queue)
             [VInt 0; VInt 1; VInt 2]],
        Ok Desk.deleted).
Proof.
  assert (F : (List.length three_stored / 5000 < 1)%nat)
    by (apply Nat.ltb_lt; reflexivity).
  split; [exact F|].
  refine (@deleteall_reads_then_deletes Desk.service 1 a_queue three_stored
            [VInt 0; VInt 1; VInt 2] Desk.desk_world _ _ _
            desk_serves_three _ _ F eq_refl).
  - repeat constructor.
  - repeat constructor.
Defined.

(** X11 at work: the empty state string. *)
Lemma getall_ignores_false_state_witness :
  truthy (VStr "") = false
  /\ RabjQueue.getall 1 a_queue (VStr "") (VBool true) (VBool false) VNone 5
                      Desk.desk_world
     = RabjQueue.getall 1 a_queue VNone (VBool true) (VBool false) VNone 5
                        Desk.desk_world.
Proof.
  split; [reflexivity|].
  exact (@getall_ignores_false_state Desk.service 1 a_queue (VStr "")
           (VBool true) (VBool false) VNone 5 Desk.desk_world eq_refl).
Defined.

(** X12 at work: page size 0. *)
Lemma getall_nonpositive_pagesize_never_returns_witness :
  (0 <= 0)%Z
  /\ (forall (w' : @world Desk.service) (questions : list RabjQuestion.t),
        RabjQueue.getall 4 a_queue VNone (VBool true) (VBool false) VNone 0
                         Desk.desk_world
        <> (w', Ok questions)).
Proof.
  assert (P : (0 <= 0)%Z) by lia.
  split; [exact P|].
  exact (@getall_nonpositive_pagesize_never_returns Desk.service 4 a_queue
           VNone (VBool true) (VBool false) VNone 0 Desk.desk_world P).
Defined.

(** X13 at work: three questions in a page of five. *)
Lemma getall_stops_at_first_short_page_witness :
  transport (srv Desk.desk_world)
    (page_request (RabjQueue.queue a_queue) VNone
       (getall_extras (VBool true) (VBool false) VNone) 5 0)
  = (three_stored,
     inr (http_ok, VDict [("questions", VList three_stored)]))
  /\ RabjQueue.getall 1 a_queue VNone (VBool true) (VBool false) VNone 5
                      Desk.desk_world
     = (@Build_world Desk.service three_stored
          [page_request (RabjQueue.queue a_queue) VNone
             [("body", VBool true)] 5 0],
        Ok (map RabjQuestion.Build_t three_stored)).
Proof.
  assert (T : transport (srv Desk.desk_world)
                (page_request (RabjQueue.queue a_queue) VNone
                   (getall_extras (VBool true) (VBool false) VNone) 5 0)
              = (three_stored,
                 inr (http_ok, VDict [("questions", VList three_stored)])))
    by reflexivity.
  split; [exact T|].
  refine (proj1 (@getall_stops_at_first_short_page Desk.service 0 a_queue
                   VNone (VBool true) (VBool false) VNone 5 Desk.desk_world
                   _ _ _ T) three_stored eq_refl _ _).
  - repeat constructor.
  - vm_compute. reflexivity.
Defined.

(** X14 at work: page size -1, three questions, one post. *)
Lemma addall_nonpositive_pagesize_posts_once_witness :
  (-1 <= 0)%Z
  /\ three <> []
  /\ RabjQueue.addall a_queue three (-1) Desk.nowhere
     = (@Build_world Desk.service three_stored
          [questions_post (RabjQueue.queue a_queue) (map question_of three)],
        Ok three_stored).
Proof.
  assert (P : (-1 <= 0)%Z) by lia.
  assert (N : three <> []) by discriminate.
  split; [exact P|]. split; [exact N|].
  exact (@addall_nonpositive_pagesize_posts_once Desk.service a_queue three
           (-1) Desk.nowhere _ _ _ _ _ P N eq_refl eq_refl eq_refl).
Defined.

(** X15 at work. *)
Lemma addall_of_one_is_addone_witness :
  valid_triple a1
  /\ RabjQueue.addall a_queue [a1] 7 Desk.nowhere
     = bind (RabjQueue.addone a_queue (VStr "a1") (VStr "bool") [])
            (fun questions => lift (py_iter questions)) Desk.nowhere.
Proof.
  assert (V : valid_triple a1) by reflexivity.
  split; [exact V|].
  exact (@addall_of_one_is_addone Desk.service a_queue (VStr "a1")
           (VStr "bool") [] 7 Desk.nowhere V).
Defined.

(** X16 at work: the [note] of [meta] is in the record posted. *)
Lemma create_queue_posts_every_field_witness :
  bind_kwargs ["self"; "name"; "owner"; "votes"; "access_key"; "tags"]
              [("note", VStr "x")] = inr tt
  /\ @py_int Desk.service (VStr "12") = inr 12%Z
  /\ exists record sent,
       wire (fst (RabjServer.create_queue a_server (VStr "doc queue")
                    (VStr "/user/x") (VStr "12") (VStr "k") VNone
                    [("note", VStr "x")] Desk.nowhere))
       = (wire Desk.nowhere
          ++ queue_post (RabjServer.store a_server) record :: sent)%list
       /\ dict_lookup record "note" = Some (VStr "x")
       /\ dict_lookup record "tags" = Some (VList []).
Proof.
  assert (K : bind_kwargs
                ["self"; "name"; "owner"; "votes"; "access_key"; "tags"]
                [("note", VStr "x")] = inr tt) by reflexivity.
  assert (E : @py_int Desk.service (VStr "12") = inr 12%Z) by reflexivity.
  split; [exact K|]. split; [exact E|].
  destruct (@create_queue_posts_every_field Desk.service a_server
              (VStr "doc queue") (VStr "/user/x") (VStr "12") (VStr "k") VNone
              [("note", VStr "x")] 12 Desk.nowhere K E)
    as (record & sent & W & _ & _ & _ & Tg & M).
  exists record, sent. split; [exact W|]. split; [|exact Tg].
  apply M. reflexivity.
Defined.

End OnTheDesk.
